(** * Session claims over primitive arrays

    A shallow embedding of
    [supertokens_python/recipe/session/claim_base_classes/primitive_array_claim.py]:
    the claim [PrimitiveArrayClaim], its validator factory
    [PrimitiveArrayClaimValidators] and the four validators built on
    [SCVMixin].

    The access-token payload is a Python [dict] that the methods receive by
    reference, read, and sometimes update in place; the validators read the
    wall clock.  Both live in the state of a small state-and-exception monad
    [M]: the dict that the source calls [payload] is the [payload] field of
    the state, and a method that ends in [return payload] gives back the
    contents the dict has at that point. *)

From Stdlib Require Import ZArith QArith Qpower Qround Qabs.
From stdpp Require Import base gmap strings list fin_maps.

#[local] Set Warnings "-register-all".
#[local] Open Scope Z_scope.

(** ** Python values *)

(** A binary64 [float]: a finite one by its exact value, or one of the two
    infinities.  There is no NaN: the operations below make none out of
    these.  The sign of a zero is not kept: no operation below tells the two
    zeros apart. *)
Inductive float : Type :=
  | Finite (q : Q)
  | Inf (negative : bool).

(** JSON-shaped Python values ([Any] inside a [JSONObject]).  [JNull] is
    [None]. *)
Inductive json : Type :=
  | JNull
  | JBool (b : bool)
  | JInt (z : Z)
  | JFloat (f : float)
  | JStr (s : string)
  | JList (l : list json)
  | JDict (d : gmap string json).

(** The exceptions the module can raise. *)
Inductive exn : Type :=
  | KeyError
  | AttributeError
  | TypeError
  | ZeroDivisionError
  | OverflowError
  | AssertionError.

(** Outcome of an expression: a value, or a raised exception. *)
Inductive result (A : Type) : Type :=
  | Ok (a : A)
  | Raise (e : exn).
Arguments Ok {A} a.
Arguments Raise {A} e.

#[global] Instance result_ret : MRet result := λ A a, Ok a.
#[global] Instance result_bind : MBind result := λ A B f r,
  match r with
  | Ok a => f a
  | Raise e => Raise e
  end.

(** [x is None] *)
Definition is_None (x : json) : bool :=
  match x with
  | JNull => true
  | _ => false
  end.

(** [o.get(k, dflt)]: only a [dict] has the method. *)
Definition py_get (o : json) (k : string) (dflt : json) : result json :=
  match o with
  | JDict d => Ok (default dflt (d !! k))
  | _ => Raise AttributeError
  end.

(** *** Numbers

    [bool] is a subclass of [int]; an operation that mixes [int] and [float]
    is carried out on floats, after the [int] has been converted. *)
Inductive num : Type :=
  | NInt (z : Z)
  | NFloat (f : float).

Definition as_num (x : json) : option num :=
  match x with
  | JBool b => Some (NInt (Z.b2z b))
  | JInt z => Some (NInt z)
  | JFloat f => Some (NFloat f)
  | _ => None
  end.

(** **** Rounding to binary64 *)

(** [floor (log2 x)] of a positive rational. *)
Definition Qlog2 (x : Q) : Z :=
  let k := Z.log2 (Qnum x) - Z.log2 (Zpos (Qden x)) in
  if Qle_bool (Qpower 2 k) x then k else k - 1.

(** The nearest integer, the even one of two that are equally near. *)
Definition round_half_even (x : Q) : Z :=
  let f := Qfloor x in
  match (x - inject_Z f ?= 1 # 2)%Q with
  | Lt => f
  | Gt => f + 1
  | Eq => if Z.even f then f else f + 1
  end.

(** The binary64 value nearest to a rational, ties to even: 53 bits of
    mantissa, exponents from -1074 up (lower down the grid stays that of
    the subnormals), and an infinity once the rounded value reaches
    2^1024. *)
Definition round64 (x : Q) : float :=
  match (x ?= 0)%Q with
  | Eq => Finite 0
  | c =>
      let a := Qabs x in
      let e := Z.max (Qlog2 a - 52) (-1074) in
      let m := round_half_even (a / Qpower 2 e) in
      let r := (inject_Z m * Qpower 2 e)%Q in
      if Qle_bool (Qpower 2 1024) r
      then Inf (match c with Lt => true | _ => false end)
      else Finite (Qred (match c with Lt => - r | _ => r end))
  end.

(** [float(z)] as the arithmetic operators do it: [OverflowError] when the
    int is too large. *)
Definition float_of_int (z : Z) : result Q :=
  match round64 (inject_Z z) with
  | Finite q => Ok q
  | Inf _ => Raise OverflowError
  end.

(** A number as a float of the same value, for comparisons: Python compares
    an [int] with a [float] exactly. *)
Definition num_float (n : num) : float :=
  match n with
  | NInt z => Finite (inject_Z z)
  | NFloat f => f
  end.

Definition float_compare (a b : float) : comparison :=
  match a, b with
  | Finite x, Finite y => (x ?= y)%Q
  | Inf true, Inf true => Eq
  | Inf false, Inf false => Eq
  | Inf true, _ => Lt
  | _, Inf false => Lt
  | Inf false, _ => Gt
  | _, Inf true => Gt
  end.

Definition float_lt (a b : float) : bool :=
  match float_compare a b with
  | Lt => true
  | _ => false
  end.

Definition float_eq (a b : float) : bool :=
  match float_compare a b with
  | Eq => true
  | _ => false
  end.

(** [a - b] for an [int] [a].  Against a [float], [a] is converted first. *)
Definition py_sub (a : Z) (b : json) : result json :=
  match as_num b with
  | Some (NInt y) => Ok (JInt (a - y))
  | Some (NFloat f) =>
      x ← float_of_int a;
      Ok (JFloat match f with
                 | Finite y => round64 (x - y)
                 | Inf negative => Inf (negb negative)
                 end)
  | None => Raise TypeError
  end.

(** [a / b], true division, for an [int] [b]: the result is a [float].
    Between two ints it is the quotient rounded once, with [OverflowError]
    when that is out of range; a [float] is divided by the converted
    [int]. *)
Definition py_truediv (a : json) (b : Z) : result json :=
  match as_num a with
  | Some (NInt x) =>
      if b =? 0 then Raise ZeroDivisionError
      else match round64 (inject_Z x / inject_Z b) with
           | Finite q => Ok (JFloat (Finite q))
           | Inf _ => Raise OverflowError
           end
  | Some (NFloat f) =>
      y ← float_of_int b;
      if b =? 0 then Raise ZeroDivisionError
      else Ok (JFloat match f with
                      | Finite x => round64 (x / y)
                      | Inf negative => Inf (xorb negative (b <? 0))
                      end)
  | None => Raise TypeError
  end.

(** [a < b] where one side is known to be a number: the other side must be
    a number too. *)
Definition py_lt (a b : json) : result bool :=
  match as_num a, as_num b with
  | Some (NInt x), Some (NInt y) => Ok (x <? y)
  | Some x, Some y => Ok (float_lt (num_float x) (num_float y))
  | _, _ => Raise TypeError
  end.

(** [a > b], same proviso. *)
Definition py_gt (a b : json) : result bool := py_lt b a.

(** [a or b] on an optional int: [None] and [0] are falsy. *)
Definition or_int (a : option Z) (b : Z) : Z :=
  match a with
  | Some z => if z =? 0 then b else z
  | None => b
  end.

(** [a or b] on an optional string: [None] and the empty string are falsy. *)
Definition or_str (a : option string) (b : string) : string :=
  match a with
  | Some s => if bool_decide (s = "") then b else s
  | None => b
  end.

(** *** Sets

    [set(x)] needs [x] iterable and its elements hashable; [v in s] needs [v]
    hashable.  Lists and dicts are the unhashable JSON values.  A set is kept
    as the list of its elements: only membership is asked of it. *)
Definition hashable (x : json) : bool :=
  match x with
  | JList _ | JDict _ => false
  | _ => true
  end.

(** [a == b] on hashable values: numbers compare by value across [bool],
    [int] and [float]. *)
Definition py_eq (a b : json) : bool :=
  match as_num a, as_num b with
  | Some x, Some y => float_eq (num_float x) (num_float y)
  | None, None =>
      match a, b with
      | JNull, JNull => true
      | JStr s, JStr t => bool_decide (s = t)
      | _, _ => false
      end
  | _, _ => false
  end.

(** [iter(x)]: a list gives its elements, a string its characters, a dict
    its keys. *)
Definition py_iter (x : json) : result (list json) :=
  match x with
  | JList l => Ok l
  | JStr s => Ok ((λ c, JStr (String c EmptyString)) <$> String.list_ascii_of_string s)
  | JDict d => Ok (JStr <$> (map_to_list d).*1)
  | _ => Raise TypeError
  end.

(** [set(x)] *)
Definition py_set (x : json) : result (list json) :=
  l ← py_iter x;
  if forallb hashable l then Ok l else Raise TypeError.

(** [v in s] for a set [s] *)
Definition py_in (v : json) (s : list json) : result bool :=
  if hashable v then Ok (existsb (py_eq v) s) else Raise TypeError.

(** ** State: the payload dict and the clock *)

(** The wall clock, as the sequence of values its successive readings give. *)
Record Clock : Type := {
  readings : nat → Z;
  cursor : nat
}.

Record State : Type := {
  payload : gmap string json;
  clock : Clock
}.

Definition M (A : Type) : Type := State → result A * State.

#[global] Instance M_ret : MRet M := λ A a s, (Ok a, s).
#[global] Instance M_bind : MBind M := λ A B f m s,
  match m s with
  | (Ok a, s') => f a s'
  | (Raise e, s') => (Raise e, s')
  end.

(** A pure expression inside a method. *)
Definition lift {A : Type} (r : result A) : M A := λ s, (r, s).

(** The value the next reading of the clock gives. *)
Definition now (s : State) : Z := readings (clock s) (cursor (clock s)).

Definition tick (s : State) : State :=
  {| payload := payload s;
     clock := {| readings := readings (clock s);
                 cursor := S (cursor (clock s)) |} |}.

(** Modelled from the spec: [get_timestamp_ms] of [supertokens_python.utils]
    reads the current wall-clock time in milliseconds. *)
Definition get_timestamp_ms : M Z := λ s, (Ok (now s), tick s).

(** [payload.get(k, dflt)] *)
Definition payload_get (k : string) (dflt : json) : M json :=
  λ s, (Ok (default dflt (payload s !! k)), s).

(** [payload[k]] *)
Definition payload_getitem (k : string) : M json :=
  λ s, match payload s !! k with
       | Some x => (Ok x, s)
       | None => (Raise KeyError, s)
       end.

(** [payload[k] = x] *)
Definition payload_setitem (k : string) (x : json) : M unit :=
  λ s, (Ok tt, {| payload := <[k := x]> (payload s); clock := clock s |}).

(** [del payload[k]] *)
Definition payload_delitem (k : string) : M unit :=
  λ s, match payload s !! k with
       | Some _ => (Ok tt, {| payload := delete k (payload s); clock := clock s |})
       | None => (Raise KeyError, s)
       end.

(** [return payload] *)
Definition return_payload : M (gmap string json) := λ s, (Ok (payload s), s).

(** [assert b] *)
Definition py_assert (b : bool) : M unit :=
  lift (if b then Ok tt else Raise AssertionError).

(** ** The classes *)

(** [Dict[str, Any]], the [user_context] every method takes and ignores. *)
Abbreviation UserContext := (option (gmap string json)).

(** Modelled from the spec: [SessionClaim] of [..interfaces], the base class
    whose [__init__(key, fetch_value)] stores the two fields.  [fetch_value]
    takes a user id and answers a value or [None]. *)
Record SessionClaim : Type := {
  key : string;
  fetch_value : string → UserContext → json
}.

(** Modelled from the spec: [ClaimValidationResult] of [..interfaces], valid
    (no reason) or invalid with a reason record. *)
Record ClaimValidationResult : Type := {
  is_valid : bool;
  reason : option (gmap string json)
}.

(** [PrimitiveArrayClaimValidators]: the claim it is bound to and the default
    maximal age. *)
Record PrimitiveArrayClaimValidators : Type := {
  pacv_claim : SessionClaim;
  default_max_age_in_sec : Z
}.

(** [PrimitiveArrayClaim]: a [SessionClaim] with a [validators] factory that
    points back to it.  The methods below read nothing of the claim but its
    [key]; they take the [SessionClaim] part, which is what the factory and
    the validators hold. *)
Record PrimitiveArrayClaim : Type := {
  base : SessionClaim;
  validators : PrimitiveArrayClaimValidators
}.

(** [PrimitiveArrayClaim.__init__] *)
Definition PrimitiveArrayClaim_init (key : string)
    (fetch_value : string → UserContext → json)
    (default_max_age_in_sec : option Z) : PrimitiveArrayClaim :=
  let claim := {| key := key; fetch_value := fetch_value |} in
  {| base := claim;
     validators := {| pacv_claim := claim;
                      default_max_age_in_sec := or_int default_max_age_in_sec 300 |} |}.

(** [PrimitiveArrayClaim.add_to_payload_] *)
Definition add_to_payload_ (self : SessionClaim) (value : json)
    (user_context : UserContext) : M (gmap string json) :=
  t ← get_timestamp_ms;
  payload_setitem (key self) (JDict {[ "v" := value; "t" := JInt t ]});;
  return_payload.

(** [PrimitiveArrayClaim.remove_from_payload_by_merge_] *)
Definition remove_from_payload_by_merge_ (self : SessionClaim)
    (user_context : UserContext) : M (gmap string json) :=
  payload_setitem (key self) JNull;;
  return_payload.

(** [PrimitiveArrayClaim.remove_from_payload] *)
Definition remove_from_payload (self : SessionClaim)
    (user_context : UserContext) : M (gmap string json) :=
  payload_delitem (key self);;
  return_payload.

(** [PrimitiveArrayClaim.get_value_from_payload] *)
Definition get_value_from_payload (self : SessionClaim)
    (user_context : UserContext) : M json :=
  entry ← payload_get (key self) (JDict ∅);
  lift (py_get entry "v" JNull).

(** [PrimitiveArrayClaim.get_last_refetch_time] *)
Definition get_last_refetch_time (self : SessionClaim)
    (user_context : UserContext) : M json :=
  entry ← payload_get (key self) (JDict ∅);
  lift (py_get entry "t" JNull).

(** The four classes that share [SCVMixin]. *)
Inductive SCVClass : Type :=
  | IncludesSCV
  | ExcludesSCV
  | IncludesAllSCV
  | ExcludesAllSCV.

(** An instance of one of them, with the fields [SCVMixin.__init__] sets
    ([id] through [SessionClaimValidator.__init__]). *)
Record SCV : Type := {
  cls : SCVClass;
  id : string;
  claim : SessionClaim;
  val : json;
  max_age_in_sec : option Z
}.

(** [SCVMixin.should_refetch] *)
Definition should_refetch (self : SCV) (user_context : UserContext) : M bool :=
  let claim := claim self in
  v ← get_value_from_payload claim user_context;
  if is_None v then mret true
  else
    match max_age_in_sec self with
    | None => mret false
    | Some max_age =>
        entry ← payload_getitem (key claim);
        t ← lift (py_get entry "t" (JInt 0));
        ts ← get_timestamp_ms;
        lift (py_lt t (JInt (ts - max_age * 1000)))
    end.

(** The result both loops of [_validate] return at the first element that
    fails. *)
Definition wrong_value (expected_key : string) (vals : list json)
    (claim_val : json) : ClaimValidationResult :=
  {| is_valid := false;
     reason := Some {[ "message" := JStr "wrong value";
                       expected_key := JList vals;
                       "actualValue" := claim_val ]} |}.

(** [for v in vals: if v not in claim_val_set: return ...] then fall through
    to [return ClaimValidationResult(is_valid=True)]. *)
Fixpoint includes_loop (vs : list json) (claim_val_set : list json)
    (failure : ClaimValidationResult) : result ClaimValidationResult :=
  match vs with
  | [] => Ok {| is_valid := true; reason := None |}
  | v :: vs' =>
      found ← py_in v claim_val_set;
      if negb found then Ok failure
      else includes_loop vs' claim_val_set failure
  end.

(** [for v in vals: if v in claim_val_set: return ...] then the same fall
    through. *)
Fixpoint excludes_loop (vs : list json) (claim_val_set : list json)
    (failure : ClaimValidationResult) : result ClaimValidationResult :=
  match vs with
  | [] => Ok {| is_valid := true; reason := None |}
  | v :: vs' =>
      found ← py_in v claim_val_set;
      if found : bool then Ok failure
      else excludes_loop vs' claim_val_set failure
  end.

(** [vals = val if isinstance(val, list) else [val]] *)
Definition normalize (val : json) : list json :=
  match val with
  | JList l => l
  | _ => [val]
  end.

(** The part of [_validate] after the expiry check: from the normalization
    of [val] to the end. *)
Definition check_values (is_include : bool) (expected_key : string)
    (val claim_val : json) : result ClaimValidationResult :=
  let vals := normalize val in
  claim_val_set ← py_set claim_val;
  if is_include
  then includes_loop vals claim_val_set (wrong_value expected_key vals claim_val)
  else excludes_loop vals claim_val_set (wrong_value expected_key vals claim_val).

(** [SCVMixin._validate].  The [isinstance(self.claim, PrimitiveArrayClaim)]
    assertion holds by construction: an [SCV] is only built over such a
    claim. *)
Definition _validate (self : SCV) (user_context : UserContext)
    (is_include : bool) : M ClaimValidationResult :=
  let val := val self in
  let max_age_in_sec := max_age_in_sec self in
  let expected_key :=
    if is_include then "expectedToInclude" else "expectedToNotInclude" in
  claim_val ← get_value_from_payload (claim self) user_context;
  if is_None claim_val then
    mret {| is_valid := false;
            reason := Some {[ "message" := JStr "value does not exist";
                              expected_key := val;
                              "actualValue" := claim_val ]} |}
  else
    last_refetch_time ← get_last_refetch_time (claim self) user_context;
    py_assert (negb (is_None last_refetch_time));;
    ts ← get_timestamp_ms;
    elapsed ← lift (py_sub ts last_refetch_time);
    age_in_sec ← lift (py_truediv elapsed 1000);
    expired ← match max_age_in_sec with
              | None => mret false
              | Some max_age => lift (py_gt age_in_sec (JInt max_age))
              end;
    if expired : bool then
      mret {| is_valid := false;
              reason := Some {[ "message" := JStr "expired";
                                "ageInSeconds" := age_in_sec;
                                "maxAgeInSeconds" :=
                                  from_option JInt JNull max_age_in_sec ]} |}
    else lift (check_values is_include expected_key val claim_val).

(** [validate] of the four classes: each calls [_validate] with its own
    [is_include]. *)
Definition validate (self : SCV) (user_context : UserContext)
    : M ClaimValidationResult :=
  match cls self with
  | IncludesSCV => _validate self user_context true
  | ExcludesSCV => _validate self user_context false
  | IncludesAllSCV => _validate self user_context true
  | ExcludesAllSCV => _validate self user_context false
  end.

(** [PrimitiveArrayClaimValidators.includes] *)
Definition includes (self : PrimitiveArrayClaimValidators) (val : json)
    (id_ : option string) (max_age_in_seconds : option Z) : SCV :=
  let max_age_in_sec := or_int max_age_in_seconds (default_max_age_in_sec self) in
  {| cls := IncludesSCV;
     id := or_str id_ (key (pacv_claim self));
     claim := pacv_claim self;
     val := val;
     max_age_in_sec := Some max_age_in_sec |}.

(** [PrimitiveArrayClaimValidators.excludes] *)
Definition excludes (self : PrimitiveArrayClaimValidators) (val : json)
    (id_ : option string) (max_age_in_seconds : option Z) : SCV :=
  let max_age_in_sec := or_int max_age_in_seconds (default_max_age_in_sec self) in
  {| cls := ExcludesSCV;
     id := or_str id_ (key (pacv_claim self));
     claim := pacv_claim self;
     val := val;
     max_age_in_sec := Some max_age_in_sec |}.

(** [PrimitiveArrayClaimValidators.includes_all] *)
Definition includes_all (self : PrimitiveArrayClaimValidators) (val : json)
    (id_ : option string) (max_age_in_seconds : option Z) : SCV :=
  let max_age_in_sec := or_int max_age_in_seconds (default_max_age_in_sec self) in
  {| cls := IncludesAllSCV;
     id := or_str id_ (key (pacv_claim self));
     claim := pacv_claim self;
     val := val;
     max_age_in_sec := Some max_age_in_sec |}.

(** [PrimitiveArrayClaimValidators.excludes_all] *)
Definition excludes_all (self : PrimitiveArrayClaimValidators) (val : json)
    (id_ : option string) (max_age_in_seconds : option Z) : SCV :=
  let max_age_in_sec := or_int max_age_in_seconds (default_max_age_in_sec self) in
  {| cls := ExcludesAllSCV;
     id := or_str id_ (key (pacv_claim self));
     claim := pacv_claim self;
     val := val;
     max_age_in_sec := Some max_age_in_sec |}.

(** ** Vocabulary of the statements *)

(** The include/exclude axis of a validator class. *)
Definition include_axis (c : SCVClass) : bool :=
  match c with
  | IncludesSCV | IncludesAllSCV => true
  | ExcludesSCV | ExcludesAllSCV => false
  end.

(** The reason key that goes with an axis. *)
Definition expected_key_of (c : SCVClass) : string :=
  if include_axis c then "expectedToInclude" else "expectedToNotInclude".

(** The sub-document invariant: an entry at [k], when there is one, is a
    dict with a field [v] and an integer timestamp [t]. *)
Definition has_v_and_t (entry : json) : bool :=
  match entry with
  | JDict d =>
      match d !! "v", d !! "t" with
      | Some _, Some (JInt _) => true
      | _, _ => false
      end
  | _ => false
  end.

Definition subdoc_invariant (k : string) (p : gmap string json) : bool :=
  from_option has_v_and_t true (p !! k).

(** The age in seconds of an integer timestamp [t] at clock value [ts], as
    [_validate] computes it: [(ts - t) / 1000]. *)
Definition age_in_sec_at (ts t : Z) : result json :=
  py_truediv (JInt (ts - t)) 1000.

(** The expiry test of [_validate] on a computed age. *)
Definition expired_at (max_age : option Z) (age : json) : result bool :=
  match max_age with
  | Some m => py_gt age (JInt m)
  | None => Ok false
  end.

(** The timestamp [should_refetch] works with: the [t] of the
    sub-document, 0 when it has none. *)
Definition timestamp_or_zero (entry : json) : option Z :=
  match entry with
  | JDict d =>
      match d !! "t" with
      | None => Some 0
      | Some (JInt t) => Some t
      | Some _ => None
      end
  | _ => None
  end.

(** The loop of [_validate] that goes with an axis. *)
Definition membership_loop (is_include : bool) :=
  if is_include then includes_loop else excludes_loop.

(** The result [_validate] ends on when no element fails. *)
Definition valid_result : ClaimValidationResult :=
  {| is_valid := true; reason := None |}.

(** A state with the given payload, on a clock that stands still at [t]. *)
Definition state_at (p : gmap string json) (t : Z) : State :=
  {| payload := p; clock := {| readings := λ _, t; cursor := 0 |} |}.

(** A claim to try things on. *)
Definition roles : PrimitiveArrayClaim :=
  PrimitiveArrayClaim_init "st-roles" (λ _ _, JNull) None.

(** The message of a result's reason, when it has one. *)
Definition message_of (res : ClaimValidationResult) : option json :=
  reason res ≫= (.!! "message").

(** ** The test helper of [tests/sessions/claims/utils.py] *)

(** The one method of [RecipeInterface] the helper touches.  The request,
    and what creating a session answers, are left open. *)
Record RecipeInterface (Request R : Type) : Type := {
  create_new_session :
    Request → string → option (gmap string json) → option (gmap string json) →
    UserContext → M R
}.
Arguments create_new_session {Request R} _ _ _ _ _ _.

(** [session_functions_override_with_claim]: the override it returns puts
    [new_create_new_session] in the place of [oi.create_new_session].  The
    claim comes in through its [build] method, which is not part of the
    sources at hand and is taken as it is given. *)
Definition session_functions_override_with_claim {Request R : Type}
    (build : string → UserContext → M (gmap string json))
    (params : option (gmap string json))
    (oi : RecipeInterface Request R) : RecipeInterface Request R :=
  let params := default ∅ params in
  let oi_create_new_session := create_new_session oi in
  {| create_new_session :=
       λ request user_id access_token_payload session_data user_context,
         payload_update ← build user_id user_context;
         let access_token_payload := default ∅ access_token_payload in
         let access_token_payload :=
           params ∪ (payload_update ∪ access_token_payload) in
         oi_create_new_session request user_id (Some access_token_payload)
           session_data user_context |}.

(** Unfolds the monad under a method body. *)
Ltac run_M :=
  cbv beta iota zeta delta
    [mbind M_bind mret M_ret lift payload_get payload_getitem py_assert
     get_timestamp_ms get_value_from_payload get_last_refetch_time fst snd].

(** ** Unfolding lemmas *)

Lemma get_value_from_payload_eq (self : SessionClaim) (uc : UserContext) (s : State) :
  get_value_from_payload self uc s
  = (py_get (default (JDict ∅) (payload s !! key self)) "v" JNull, s).
Proof. reflexivity. Qed.

Lemma get_last_refetch_time_eq (self : SessionClaim) (uc : UserContext) (s : State) :
  get_last_refetch_time self uc s
  = (py_get (default (JDict ∅) (payload s !! key self)) "t" JNull, s).
Proof. reflexivity. Qed.

Lemma add_to_payload__eq (self : SessionClaim) (value : json) (uc : UserContext)
    (s : State) :
  let p' := <[key self := JDict {[ "v" := value; "t" := JInt (now s) ]}]> (payload s) in
  add_to_payload_ self value uc s
  = (Ok p', {| payload := p'; clock := clock (tick s) |}).
Proof. reflexivity. Qed.

Lemma remove_from_payload_by_merge__eq (self : SessionClaim) (uc : UserContext)
    (s : State) :
  let p' := <[key self := JNull]> (payload s) in
  remove_from_payload_by_merge_ self uc s
  = (Ok p', {| payload := p'; clock := clock s |}).
Proof. reflexivity. Qed.

Lemma remove_from_payload_present (self : SessionClaim) (uc : UserContext)
    (s : State) :
  is_Some (payload s !! key self) →
  remove_from_payload self uc s
  = (Ok (delete (key self) (payload s)),
     {| payload := delete (key self) (payload s); clock := clock s |}).
Proof.
  intros [e He].
  unfold remove_from_payload, mbind, M_bind, payload_delitem.
  rewrite He. reflexivity.
Qed.

Lemma remove_from_payload_absent (self : SessionClaim) (uc : UserContext)
    (s : State) :
  payload s !! key self = None →
  remove_from_payload self uc s = (Raise KeyError, s).
Proof.
  intros He.
  unfold remove_from_payload, mbind, M_bind, payload_delitem.
  rewrite He. reflexivity.
Qed.

Lemma validate_eq (self : SCV) (uc : UserContext) :
  validate self uc = _validate self uc (include_axis (cls self)).
Proof. unfold validate. destruct (cls self); reflexivity. Qed.

(** [_validate] on a payload whose value reads as [None]: the first
    [return], before the clock is looked at. *)
Lemma _validate_absent (self : SCV) (uc : UserContext) (is_include : bool)
    (s : State) :
  (get_value_from_payload (claim self) uc s).1 = Ok JNull →
  ∃ res, _validate self uc is_include s = (Ok res, s) ∧ is_valid res = false
         ∧ reason res
           = Some {[ "message" := JStr "value does not exist";
                     (if is_include then "expectedToInclude"
                      else "expectedToNotInclude") := val self;
                     "actualValue" := JNull ]}.
Proof.
  rewrite get_value_from_payload_eq. cbn [fst]. intros Hv.
  unfold _validate, mbind, M_bind.
  rewrite get_value_from_payload_eq, Hv. cbn [is_None mret M_ret].
  eexists. split_and!; reflexivity.
Qed.

(** ** The payload primitives *)

(** C4: reading the value back after [add_to_payload_] gives the value that
    was added, and reading the refetch time gives the one clock reading the
    add took. *)
Theorem add_to_payload_round_trip (self : SessionClaim) (value : json)
    (uc uc' : UserContext) (s : State) :
  let s' := (add_to_payload_ self value uc s).2 in
  get_value_from_payload self uc' s' = (Ok value, s')
  ∧ get_last_refetch_time self uc' s' = (Ok (JInt (now s)), s')
  ∧ clock s' = clock (tick s)
  ∧ (add_to_payload_ self value uc s).1 = Ok (payload s').
Proof.
  rewrite add_to_payload__eq. cbn [snd fst payload clock].
  rewrite get_value_from_payload_eq, get_last_refetch_time_eq.
  cbn [payload]. rewrite lookup_insert_eq. cbn [from_option Datatypes.id py_get].
  rewrite lookup_insert_eq.
  rewrite lookup_insert_ne by discriminate.
  rewrite lookup_singleton_eq. done.
Qed.

(** C2, what the code does: after [remove_from_payload_by_merge_] the key is
    still in the payload, mapped to [None], and [get_value_from_payload] on
    that payload raises [AttributeError] ([None] has no [get]). *)
Theorem tombstone_read_raises (self : SessionClaim) (uc uc' : UserContext)
    (s : State) :
  let s' := (remove_from_payload_by_merge_ self uc s).2 in
  payload s' !! key self = Some JNull
  ∧ get_value_from_payload self uc' s' = (Raise AttributeError, s').
Proof.
  rewrite remove_from_payload_by_merge__eq. cbn [snd].
  rewrite get_value_from_payload_eq. cbn [payload].
  rewrite lookup_insert_eq. done.
Qed.

(** C3 as stated fails: on a payload that holds the key, the first
    [remove_from_payload] succeeds and the second raises [KeyError]. *)
Lemma remove_twice_second_raises :
  let s := state_at {[ "st-roles" := JDict {[ "v" := JList [JStr "admin"];
                                               "t" := JInt 1000 ]} ]} 2000 in
  let s1 := (remove_from_payload (base roles) None s).2 in
  (remove_from_payload (base roles) None s).1 = Ok ∅
  ∧ (remove_from_payload (base roles) None s1).1 = Raise KeyError.
Proof. vm_compute. done. Qed.

(** C3, amended: on a payload that holds the key, [remove_from_payload]
    deletes the entry and returns; called again right after, it raises
    [KeyError] and leaves the payload as the first call left it. *)
Theorem remove_from_payload_twice (self : SessionClaim) (uc uc' : UserContext)
    (s : State) :
  is_Some (payload s !! key self) →
  let s1 := (remove_from_payload self uc s).2 in
  (remove_from_payload self uc s).1 = Ok (delete (key self) (payload s))
  ∧ payload s1 = delete (key self) (payload s)
  ∧ remove_from_payload self uc' s1 = (Raise KeyError, s1).
Proof.
  intros Hin. rewrite (remove_from_payload_present _ _ _ Hin).
  cbn [fst snd payload]. split_and!; [done..|].
  apply remove_from_payload_absent. cbn [payload]. apply lookup_delete_eq.
Qed.

Lemma remove_from_payload_twice_witness :
  let s := state_at {[ "st-roles" := JDict {[ "v" := JList [JStr "admin"];
                                               "t" := JInt 1000 ]} ]} 2000 in
  let s1 := (remove_from_payload (base roles) None s).2 in
  is_Some (payload s !! key (base roles))
  ∧ remove_from_payload (base roles) None s1 = (Raise KeyError, s1).
Proof.
  intros s s1.
  assert (Hin : is_Some (payload s !! key (base roles))) by (vm_compute; eauto).
  split; [exact Hin|].
  exact (proj2 (proj2 (remove_from_payload_twice (base roles) None None s Hin))).
Defined.

(** C8: [add_to_payload_], [remove_from_payload] and
    [remove_from_payload_by_merge_] leave every key other than the claim's
    own as it was, in the payload and in the dict they return. *)
Theorem other_keys_untouched (self : SessionClaim) (value : json)
    (uc : UserContext) (s : State) (k : string) :
  k ≠ key self →
  payload (add_to_payload_ self value uc s).2 !! k = payload s !! k
  ∧ payload (remove_from_payload self uc s).2 !! k = payload s !! k
  ∧ payload (remove_from_payload_by_merge_ self uc s).2 !! k = payload s !! k
  ∧ (∀ p, (add_to_payload_ self value uc s).1 = Ok p → p !! k = payload s !! k)
  ∧ (∀ p, (remove_from_payload self uc s).1 = Ok p → p !! k = payload s !! k)
  ∧ (∀ p, (remove_from_payload_by_merge_ self uc s).1 = Ok p →
          p !! k = payload s !! k).
Proof.
  intros Hk.
  rewrite add_to_payload__eq, remove_from_payload_by_merge__eq.
  cbn [fst snd payload].
  assert (Hrm : payload (remove_from_payload self uc s).2 !! k = payload s !! k
                ∧ ∀ p, (remove_from_payload self uc s).1 = Ok p →
                       p !! k = payload s !! k).
  { destruct (payload s !! key self) as [e|] eqn:He.
    - rewrite remove_from_payload_present by (rewrite He; eauto).
      cbn [fst snd payload]. split.
      + by apply lookup_delete_ne.
      + intros p [= <-]. by apply lookup_delete_ne.
    - rewrite remove_from_payload_absent by done.
      cbn [fst snd]. split; [done|]. intros p [=]. }
  destruct Hrm as [Hrm1 Hrm2].
  split_and!; try done.
  - by apply lookup_insert_ne.
  - by apply lookup_insert_ne.
  - intros p [= <-]. by apply lookup_insert_ne.
  - intros p [= <-]. by apply lookup_insert_ne.
Qed.

Lemma other_keys_untouched_witness :
  let s := state_at {[ "st-roles" := JNull; "sub" := JStr "user-1" ]} 2000 in
  payload (remove_from_payload (base roles) None s).2 !! "sub"
  = Some (JStr "user-1").
Proof.
  intros s.
  assert (Hk : "sub" ≠ key (base roles)) by discriminate.
  rewrite (proj1 (proj2 (other_keys_untouched (base roles) JNull None s "sub" Hk))).
  vm_compute. reflexivity.
Defined.

(** ** The factory *)

(** C10: the four constructors and [PrimitiveArrayClaim.__init__] take
    their defaults by truthiness: a maximal age of [0] gives the factory's
    default, an empty id gives the claim's key, and a default maximal age of
    [0] gives 300 seconds. *)
Theorem factory_defaults_by_truthiness (self : PrimitiveArrayClaimValidators)
    (val : json) (id_ : option string) (max_age_in_seconds : option Z)
    (k : string) (fetch : string → UserContext → json) :
  Forall (λ mk : PrimitiveArrayClaimValidators → json → option string →
                 option Z → SCV,
            max_age_in_sec (mk self val id_ (Some 0))
              = Some (default_max_age_in_sec self)
            ∧ id (mk self val (Some "") max_age_in_seconds)
              = key (pacv_claim self))
         [includes; excludes; includes_all; excludes_all]
  ∧ default_max_age_in_sec (validators (PrimitiveArrayClaim_init k fetch (Some 0)))
    = 300.
Proof.
  split; [|reflexivity].
  repeat (apply Forall_cons; split; [split; reflexivity|]).
  apply Forall_nil. done.
Qed.

(** ** The validators *)

(** C5: when [get_value_from_payload] gives [None], [validate] of each of
    the four classes returns, without reading the clock, the invalid result
    whose reason says that the value does not exist, with the configured
    value under the key of the class's axis. *)
Theorem validate_missing_value (self : SCV) (uc : UserContext) (s : State) :
  (get_value_from_payload (claim self) uc s).1 = Ok JNull →
  validate self uc s
  = (Ok {| is_valid := false;
           reason := Some {[ "message" := JStr "value does not exist";
                             expected_key_of (cls self) := val self;
                             "actualValue" := JNull ]} |}, s).
Proof.
  intros Hv. rewrite validate_eq. unfold expected_key_of.
  destruct (_validate_absent self uc (include_axis (cls self)) s Hv)
    as ([valid why] & -> & Hvalid & Hwhy).
  cbn [is_valid reason] in *. by subst.
Qed.

Lemma validate_missing_value_witness :
  Forall (λ self, ∃ r, validate self None (state_at ∅ 2000)
                       = (Ok r, state_at ∅ 2000) ∧ is_valid r = false)
         [includes (validators roles) (JStr "admin") None None;
          excludes (validators roles) (JStr "admin") None None;
          includes_all (validators roles) (JList [JStr "admin"]) None None;
          excludes_all (validators roles) (JList [JStr "admin"]) None None].
Proof.
  repeat (apply Forall_cons; split;
    [eexists; split;
       [apply validate_missing_value; vm_compute; reflexivity | reflexivity]|]).
  apply Forall_nil. done.
Defined.

(** An entry that yields a value and an integer timestamp is a dict that
    has both. *)
Lemma entry_of_reads (self : SessionClaim) (uc : UserContext) (s : State)
    (r : json) (t : Z) :
  (get_value_from_payload self uc s).1 = Ok r →
  is_None r = false →
  (get_last_refetch_time self uc s).1 = Ok (JInt t) →
  ∃ d, payload s !! key self = Some (JDict d)
       ∧ d !! "v" = Some r ∧ d !! "t" = Some (JInt t).
Proof.
  rewrite get_value_from_payload_eq, get_last_refetch_time_eq. cbn [fst].
  destruct (payload s !! key self) as [e|]; cbn [from_option Datatypes.id].
  - destruct e; cbn [py_get]; try discriminate.
    intros [= Hv] Hr [= Ht]. exists d.
    destruct (d !! "v"); cbn in Hv; [|subst; discriminate].
    destruct (d !! "t"); cbn in Ht; [|discriminate].
    by subst.
  - cbn [py_get]. rewrite lookup_empty. cbn. intros [= <-]. discriminate.
Qed.

(** C6 as stated fails.  On the [None] entry that
    [remove_from_payload_by_merge_] writes, [should_refetch] raises instead
    of answering; and on a sub-document with a value and no timestamp it
    answers true, although no timestamp is stored. *)
Lemma should_refetch_not_every_payload :
  let self := includes (validators roles) (JStr "admin") None (Some 300) in
  let tombstone := state_at {[ "st-roles" := JNull ]} 301001 in
  let untimed :=
    state_at {[ "st-roles" := JDict {[ "v" := JList [JStr "admin"] ]} ]} 301001 in
  (should_refetch self None tombstone).1 = Raise AttributeError
  ∧ (should_refetch self None untimed).1 = Ok true
  ∧ (get_value_from_payload (claim self) None untimed).1
    = Ok (JList [JStr "admin"])
  ∧ (get_last_refetch_time (claim self) None untimed).1 = Ok JNull.
Proof. vm_compute. done. Qed.

(** What [should_refetch] answers on a payload with a value, on a
    sub-document whose timestamp is an integer or missing. *)
Lemma should_refetch_value (self : SCV) (uc : UserContext) (s : State)
    (r entry : json) (m t : Z) :
  (get_value_from_payload (claim self) uc s).1 = Ok r →
  is_None r = false →
  payload s !! key (claim self) = Some entry →
  timestamp_or_zero entry = Some t →
  max_age_in_sec self = Some m →
  should_refetch self uc s = (Ok (t <? now s - m * 1000), tick s).
Proof.
  rewrite get_value_from_payload_eq. cbn [fst]. intros Hv Hr He Ht Hm.
  unfold should_refetch, mbind, M_bind.
  rewrite get_value_from_payload_eq, Hv, Hr, Hm.
  unfold payload_getitem. rewrite He. cbn [lift].
  destruct entry; try discriminate. cbn [timestamp_or_zero py_get] in *.
  destruct (d !! "t") as [[]|]; try discriminate;
    injection Ht as <-; reflexivity.
Qed.

(** C6, amended: on a payload whose entry under the claim's key is absent
    or a sub-document whose timestamp is an integer or missing,
    [should_refetch] answers true exactly when the claim value is absent,
    or a maximal age is set and the timestamp, counted as 0 when missing,
    is more than that many seconds old; at exactly the maximal age it
    answers false, one millisecond later true. *)
Theorem should_refetch_spec (self : SCV) (uc : UserContext) (s : State)
    (r : json) :
  (get_value_from_payload (claim self) uc s).1 = Ok r →
  (∀ entry, payload s !! key (claim self) = Some entry →
            is_None r = false → is_Some (timestamp_or_zero entry)) →
  (∃ b, (should_refetch self uc s).1 = Ok b
        ∧ (b = true ↔
           is_None r = true
           ∨ ∃ m entry t, max_age_in_sec self = Some m
                          ∧ payload s !! key (claim self) = Some entry
                          ∧ timestamp_or_zero entry = Some t
                          ∧ now s - t > m * 1000))
  ∧ (∀ m entry t, is_None r = false →
                  max_age_in_sec self = Some m →
                  payload s !! key (claim self) = Some entry →
                  timestamp_or_zero entry = Some t →
                  (now s - t = m * 1000 →
                   (should_refetch self uc s).1 = Ok false)
                  ∧ (now s - t = m * 1000 + 1 →
                     (should_refetch self uc s).1 = Ok true)).
Proof.
  intros Hv Ht. split.
  - destruct (is_None r) eqn:Hr.
    + exists true. split; [|by intuition].
      rewrite get_value_from_payload_eq in Hv. cbn [fst] in Hv.
      unfold should_refetch, mbind, M_bind.
      rewrite get_value_from_payload_eq, Hv, Hr. reflexivity.
    + destruct (max_age_in_sec self) as [m|] eqn:Hm.
      * assert (He : ∃ entry, payload s !! key (claim self) = Some entry).
        { rewrite get_value_from_payload_eq in Hv. cbn [fst] in Hv.
          destruct (payload s !! key (claim self)) as [entry|]; [by eexists|].
          cbn in Hv. rewrite lookup_empty in Hv. cbn in Hv.
          injection Hv as <-. discriminate. }
        destruct He as [entry He].
        destruct (Ht entry He eq_refl) as [t Hts].
        exists (t <? now s - m * 1000). split.
        -- by rewrite (should_refetch_value _ _ _ _ _ _ _ Hv Hr He Hts Hm).
        -- rewrite Z.ltb_lt. split.
           ++ intros Hlt. right. exists m, entry, t. split_and!; [done..|lia].
           ++ intros [[=]|(m' & entry' & t' & [= <-] & He' & Hts' & Hage)].
              rewrite He in He'. injection He' as <-.
              rewrite Hts in Hts'. injection Hts' as <-. lia.
      * exists false. split.
        -- rewrite get_value_from_payload_eq in Hv. cbn [fst] in Hv.
           unfold should_refetch, mbind, M_bind.
           rewrite get_value_from_payload_eq, Hv, Hr, Hm. reflexivity.
        -- split; [done|]. intros [[=]|(m' & e' & t' & [=] & _)].
  - intros m entry t Hr Hm He Hts.
    rewrite (should_refetch_value _ _ _ _ _ _ _ Hv Hr He Hts Hm). cbn [fst].
    split; intros Hage; f_equal.
    + apply Z.ltb_ge. lia.
    + apply Z.ltb_lt. lia.
Qed.

Lemma should_refetch_spec_witness :
  let self := includes (validators roles) (JStr "admin") None (Some 300) in
  let entry := JDict {[ "v" := JList [JStr "admin"]; "t" := JInt 1000 ]} in
  let p := {[ "st-roles" := entry ]} : gmap string json in
  (should_refetch self None (state_at p 301000)).1 = Ok false
  ∧ (should_refetch self None (state_at p 301001)).1 = Ok true.
Proof.
  intros self entry p.
  assert (Hts : ∀ ts e, payload (state_at p ts) !! key (claim self) = Some e →
            is_None (JList [JStr "admin"]) = false →
            is_Some (timestamp_or_zero e)).
  { intros ts e He _. vm_compute in He. injection He as <-.
    exists 1000. vm_compute. reflexivity. }
  split.
  - refine (proj1 (proj2 (should_refetch_spec self None (state_at p 301000)
                            (JList [JStr "admin"]) _ (Hts 301000))
                     300 entry 1000 _ _ _ _) _);
      vm_compute; reflexivity.
  - refine (proj2 (proj2 (should_refetch_spec self None (state_at p 301001)
                            (JList [JStr "admin"]) _ (Hts 301001))
                     300 entry 1000 _ _ _ _) _);
      vm_compute; reflexivity.
Defined.

(** *** Rounding to binary64 *)

Lemma pow2_pos (e : Z) : (0 < Qpower 2 e)%Q.
Proof. by apply Qpower_0_lt. Qed.

Lemma pow2_le (a b : Z) : a ≤ b → (Qpower 2 a <= Qpower 2 b)%Q.
Proof. intros H. by apply Qpower_le_compat_l. Qed.

Lemma pow2_lt_inv (a b : Z) : (Qpower 2 a < Qpower 2 b)%Q → a < b.
Proof. intros H. by apply (Qpower_lt_compat_l_inv 2). Qed.

Lemma pow2_plus (a b : Z) : (Qpower 2 (a + b) == Qpower 2 a * Qpower 2 b)%Q.
Proof. by apply Qpower_plus. Qed.

Lemma pow2_Z (n : Z) : 0 ≤ n → (Qpower 2 n == inject_Z (2 ^ n))%Q.
Proof. intros H. symmetry. by apply (Zpower_Qpower 2). Qed.

(** [2 ^ Qlog2 x <= x < 2 ^ (Qlog2 x + 1)] for a positive [x] *)
Lemma Qlog2_spec (x : Q) :
  (0 < x)%Q →
  (Qpower 2 (Qlog2 x) <= x)%Q ∧ (x < Qpower 2 (Qlog2 x + 1))%Q.
Proof.
  intros Hx. destruct x as [n d]. unfold Qlog2. cbn [Qnum Qden].
  assert (Hn : 0 < n) by (unfold Qlt in Hx; cbn in Hx; lia).
  set (a := Z.log2 n). set (b := Z.log2 (Z.pos d)).
  assert (Ha : 0 ≤ a) by apply Z.log2_nonneg.
  assert (Hb : 0 ≤ b) by apply Z.log2_nonneg.
  destruct (Z.log2_spec n Hn) as [Ha1 Ha2]. fold a in Ha1, Ha2.
  destruct (Z.log2_spec (Z.pos d) eq_refl) as [Hb1 Hb2]. fold b in Hb1, Hb2.
  assert (Hnd : (n # d == inject_Z n / inject_Z (Z.pos d))%Q) by apply Qmake_Qdiv.
  assert (Hdpos : (0 < inject_Z (Z.pos d))%Q) by (unfold Qlt; cbn; lia).
  (* bounds on n/d *)
  assert (Hup : (n # d < Qpower 2 (a - b + 1))%Q).
  { rewrite Hnd. apply Qlt_shift_div_r; [done|].
    apply Qlt_le_trans with (inject_Z (2 ^ (a + 1))).
    - rewrite <- Zlt_Qlt. lia.
    - rewrite <- (pow2_Z (a + 1)) by lia.
      replace (a + 1) with ((a - b + 1) + b) by lia.
      rewrite pow2_plus. apply Qmult_le_l; [apply pow2_pos|].
      rewrite pow2_Z by lia. rewrite <- Zle_Qle. lia. }
  assert (Hlow : (Qpower 2 (a - b - 1) < n # d)%Q).
  { rewrite Hnd. apply Qlt_shift_div_l; [done|].
    apply Qlt_le_trans with (inject_Z (2 ^ a)).
    - rewrite <- (pow2_Z a) by lia.
      replace a with ((a - b - 1) + (b + 1)) at 2 by lia.
      rewrite pow2_plus. apply Qmult_lt_l; [apply pow2_pos|].
      rewrite pow2_Z by lia. rewrite <- Zlt_Qlt. lia.
    - rewrite <- Zle_Qle. lia. }
  destruct (Qle_bool (Qpower 2 (a - b)) (n # d)) eqn:E.
  - apply Qle_bool_iff in E. by split.
  - split.
    + by apply Qlt_le_weak.
    + replace (a - b - 1 + 1) with (a - b) by lia.
      apply Qnot_le_lt. intros Hle. apply Qle_bool_iff in Hle. congruence.
Qed.

Lemma round_half_even_floor (x : Q) :
  round_half_even x = Qfloor x ∨ round_half_even x = Qfloor x + 1.
Proof.
  unfold round_half_even.
  destruct (x - inject_Z (Qfloor x) ?= 1 # 2)%Q; auto.
  destruct (Z.even (Qfloor x)); auto.
Qed.

(** An integer below [x] is below its rounding. *)
Lemma round_half_even_ge (x : Q) (k : Z) :
  (inject_Z k <= x)%Q → k ≤ round_half_even x.
Proof.
  intros H. apply Qfloor_resp_le in H. rewrite Qfloor_Z in H.
  destruct (round_half_even_floor x) as [-> | ->]; lia.
Qed.

(** An integer above [x] is above its rounding. *)
Lemma round_half_even_le (x : Q) (k : Z) :
  (x <= inject_Z k)%Q → round_half_even x ≤ k.
Proof.
  intros H. pose proof (Qfloor_resp_le _ _ H) as Hf. rewrite Qfloor_Z in Hf.
  destruct (Z.eq_dec (Qfloor x) k) as [Heq|Hne].
  - unfold round_half_even.
    assert (Hd : (x - inject_Z (Qfloor x) ?= 1 # 2)%Q = Lt).
    { apply Qlt_alt. rewrite Heq.
      apply Qle_lt_trans with 0%Q; [|reflexivity].
      apply (Qplus_le_l _ _ (inject_Z k)). ring_simplify. exact H. }
    rewrite Hd. lia.
  - destruct (round_half_even_floor x) as [-> | ->]; lia.
Qed.

Lemma round64_pos (x : Q) :
  (0 < x)%Q →
  let e := Z.max (Qlog2 x - 52) (-1074) in
  let r := (inject_Z (round_half_even (x / Qpower 2 e)) * Qpower 2 e)%Q in
  round64 x = if Qle_bool (Qpower 2 1024) r then Inf false else Finite (Qred r).
Proof.
  intros Hx. unfold round64.
  assert (Hc : (x ?= 0)%Q = Gt) by (by apply Qgt_alt).
  rewrite Hc.
  assert (Ha : Qabs x = x).
  { destruct x as [[|n|n] d]; try reflexivity; unfold Qlt in Hx; cbn in Hx; lia. }
  rewrite Ha. reflexivity.
Qed.

(** A positive [x] below an integer [m < 2^53] rounds to a double that is
    still below [m]. *)
Lemma round64_le_int (x : Q) (m : Z) :
  (0 < x)%Q → (x <= inject_Z m)%Q → m < 2 ^ 53 →
  ∃ r, round64 x = Finite r ∧ (r <= inject_Z m)%Q.
Proof.
  intros Hx Hxm Hm. rewrite (round64_pos x Hx). cbn zeta.
  destruct (Qlog2_spec x Hx) as [Hl1 Hl2].
  set (e := Z.max (Qlog2 x - 52) (-1074)).
  assert (HL : Qlog2 x < 53).
  { apply pow2_lt_inv. eapply Qle_lt_trans; [exact Hl1|].
    eapply Qle_lt_trans; [exact Hxm|]. rewrite (pow2_Z 53) by lia.
    by rewrite <- Zlt_Qlt. }
  assert (He : e ≤ 0) by lia.
  pose proof (pow2_pos e) as Hs.
  assert (Hk : (inject_Z m == inject_Z (m * 2 ^ (- e)) * Qpower 2 e)%Q).
  { rewrite inject_Z_mult, <- (pow2_Z (- e)) by lia.
    rewrite <- Qmult_assoc, <- pow2_plus.
    replace (- e + e) with 0 by lia. cbn. ring. }
  assert (HM : round_half_even (x / Qpower 2 e) ≤ m * 2 ^ (- e)).
  { apply round_half_even_le. apply Qle_shift_div_r; [done|]. by rewrite <- Hk. }
  set (M := round_half_even (x / Qpower 2 e)) in *.
  assert (Hr : (inject_Z M * Qpower 2 e <= inject_Z m)%Q).
  { rewrite Hk. apply Qmult_le_compat_r; [|by apply Qlt_le_weak].
    by rewrite <- Zle_Qle. }
  assert (Hno : Qle_bool (Qpower 2 1024) (inject_Z M * Qpower 2 e) = false).
  { destruct (Qle_bool _ _) eqn:E; [|done]. apply Qle_bool_iff in E.
    exfalso. apply (Qlt_irrefl (Qpower 2 1024)).
    eapply Qle_lt_trans; [exact E|]. eapply Qle_lt_trans; [exact Hr|].
    rewrite (pow2_Z 1024) by lia. rewrite <- Zlt_Qlt.
    assert (2 ^ 53 < 2 ^ 1024) by (apply Z.pow_lt_mono_r; lia). lia. }
  rewrite Hno. eexists. split; [reflexivity|]. by rewrite Qred_correct.
Qed.

Lemma inject_Z_nonneg (m : Z) : 0 ≤ m → (0 <= inject_Z m)%Q.
Proof. intros H. unfold Qle. cbn. lia. Qed.

(** A positive [x < 2^1023] that exceeds an integer [0 <= m < 2^43] by at
    least [2^-10] rounds to a double that is still above [m]. *)
Lemma round64_gt_int (x : Q) (m : Z) :
  0 ≤ m → m < 2 ^ 43 →
  (inject_Z m + (1 # 1024) <= x)%Q → (x < Qpower 2 1023)%Q →
  ∃ r, round64 x = Finite r ∧ (inject_Z m < r)%Q.
Proof.
  intros Hm0 Hm Hmx Hxmax.
  assert (Hx : (0 < x)%Q).
  { eapply Qlt_le_trans; [|exact Hmx].
    apply Qlt_le_trans with (0 + (1 # 1024))%Q; [reflexivity|].
    apply Qplus_le_l. by apply inject_Z_nonneg. }
  rewrite (round64_pos x Hx). cbn zeta.
  destruct (Qlog2_spec x Hx) as [Hl1 Hl2].
  set (L := Qlog2 x) in *.
  assert (HLlo : -10 ≤ L).
  { assert (-10 < L + 1); [|lia]. apply pow2_lt_inv.
    eapply Qle_lt_trans; [|exact Hl2]. eapply Qle_trans; [|exact Hmx].
    apply Qle_trans with (0 + (1 # 1024))%Q; [by cbn|].
    apply Qplus_le_l. by apply inject_Z_nonneg. }
  assert (HLhi : L < 1023).
  { apply pow2_lt_inv. eapply Qle_lt_trans; [exact Hl1|exact Hxmax]. }
  replace (Z.max (L - 52) (-1074)) with (L - 52) by lia.
  set (e := L - 52).
  pose proof (pow2_pos e) as Hs.
  set (M := round_half_even (x / Qpower 2 e)).
  assert (HMhi : M ≤ 2 ^ 53).
  { apply round_half_even_le. apply Qle_shift_div_r; [done|].
    apply Qlt_le_weak. eapply Qlt_le_trans; [exact Hl2|].
    rewrite <- (pow2_Z 53) by lia. rewrite <- pow2_plus.
    apply pow2_le. unfold e. lia. }
  assert (Hno : Qle_bool (Qpower 2 1024) (inject_Z M * Qpower 2 e) = false).
  { destruct (Qle_bool _ _) eqn:E; [|done]. apply Qle_bool_iff in E.
    exfalso. apply (Qlt_irrefl (Qpower 2 1024)).
    eapply Qle_lt_trans; [exact E|].
    apply Qle_lt_trans with (inject_Z (2 ^ 53) * Qpower 2 e)%Q.
    - apply Qmult_le_compat_r; [|by apply Qlt_le_weak]. by rewrite <- Zle_Qle.
    - rewrite <- (pow2_Z 53) by lia. rewrite <- pow2_plus.
      apply Qpower_lt_compat_l; [|done]. unfold e. lia. }
  rewrite Hno. eexists. split; [reflexivity|]. rewrite Qred_correct.
  destruct (Z_le_gt_dec L 42) as [HL|HL].
  - (* the grid is fine enough to hold [m + 2^-10] *)
    set (k := (m * 1024 + 1) * 2 ^ (-10 - e)).
    assert (Hk : (inject_Z k * Qpower 2 e == inject_Z m + (1 # 1024))%Q).
    { unfold k. rewrite inject_Z_mult, <- (pow2_Z (-10 - e)) by (unfold e; lia).
      rewrite <- Qmult_assoc, <- pow2_plus.
      replace (-10 - e + e) with (-10) by lia.
      rewrite inject_Z_plus, inject_Z_mult. cbn. field. }
    assert (HkM : k ≤ M).
    { apply round_half_even_ge. apply Qle_shift_div_l; [done|]. by rewrite Hk. }
    apply Qlt_le_trans with (inject_Z m + (1 # 1024))%Q.
    + rewrite <- (Qplus_0_r (inject_Z m)) at 1. by apply Qplus_lt_r.
    + rewrite <- Hk. apply Qmult_le_compat_r; [|by apply Qlt_le_weak].
      by rewrite <- Zle_Qle.
  - (* the rounding is at least [2^43] *)
    assert (HkM : 2 ^ 52 ≤ M).
    { apply round_half_even_ge. apply Qle_shift_div_l; [done|].
      rewrite <- (pow2_Z 52) by lia. rewrite <- pow2_plus.
      replace (52 + e) with L by (unfold e; lia). exact Hl1. }
    apply Qlt_le_trans with (Qpower 2 43).
    + rewrite (pow2_Z 43) by lia. by rewrite <- Zlt_Qlt.
    + apply Qle_trans with (Qpower 2 L); [apply pow2_le; lia|].
      replace L with (52 + e) at 1 by (unfold e; lia).
      rewrite pow2_plus, (pow2_Z 52) by lia.
      apply Qmult_le_compat_r; [|by apply Qlt_le_weak]. by rewrite <- Zle_Qle.
Qed.

(** Away from the subnormals and below [2^1023], rounding stays finite and
    keeps the sign. *)
Lemma round64_finite (x : Q) :
  ((1 # 1024) <= Qabs x)%Q → (Qabs x < Qpower 2 1023)%Q →
  ∃ r, round64 x = Finite r
       ∧ ((0 < x)%Q → (0 <= r)%Q) ∧ ((x < 0)%Q → (r <= 0)%Q).
Proof.
  intros Hlo Hhi. set (a := Qabs x) in *.
  assert (Ha : (0 < a)%Q) by (eapply Qlt_le_trans; [|exact Hlo]; reflexivity).
  destruct (Qlog2_spec a Ha) as [Hl1 Hl2].
  set (L := Qlog2 a) in *.
  assert (HLlo : -10 ≤ L).
  { assert (-10 < L + 1); [|lia]. apply pow2_lt_inv.
    eapply Qle_lt_trans; [|exact Hl2]. eapply Qle_trans; [|exact Hlo]. by cbn. }
  assert (HLhi : L < 1023).
  { apply pow2_lt_inv. eapply Qle_lt_trans; [exact Hl1|exact Hhi]. }
  set (e := L - 52).
  pose proof (pow2_pos e) as Hs.
  set (M := round_half_even (a / Qpower 2 e)).
  assert (HMhi : M ≤ 2 ^ 53).
  { apply round_half_even_le. apply Qle_shift_div_r; [done|].
    apply Qlt_le_weak. eapply Qlt_le_trans; [exact Hl2|].
    rewrite <- (pow2_Z 53) by lia. rewrite <- pow2_plus.
    apply pow2_le. unfold e. lia. }
  assert (HMlo : 0 ≤ M).
  { apply round_half_even_ge. apply Qle_shift_div_l; [done|].
    rewrite Qmult_0_l. by apply Qlt_le_weak. }
  assert (Hr : (0 <= inject_Z M * Qpower 2 e)%Q).
  { apply Qmult_le_0_compat; [by apply inject_Z_nonneg|by apply Qlt_le_weak]. }
  assert (Hno : Qle_bool (Qpower 2 1024) (inject_Z M * Qpower 2 e) = false).
  { destruct (Qle_bool _ _) eqn:E; [|done]. apply Qle_bool_iff in E.
    exfalso. apply (Qlt_irrefl (Qpower 2 1024)).
    eapply Qle_lt_trans; [exact E|].
    apply Qle_lt_trans with (inject_Z (2 ^ 53) * Qpower 2 e)%Q.
    - apply Qmult_le_compat_r; [|by apply Qlt_le_weak]. by rewrite <- Zle_Qle.
    - rewrite <- (pow2_Z 53) by lia. rewrite <- pow2_plus.
      apply Qpower_lt_compat_l; [|done]. unfold e. lia. }
  unfold round64. fold a. fold L.
  replace (Z.max (L - 52) (-1074)) with e by (unfold e; lia).
  fold M. rewrite Hno.
  destruct (x ?= 0)%Q eqn:Hc.
  - apply Qeq_alt in Hc. exfalso. apply (Qlt_irrefl 0).
    eapply Qlt_le_trans; [exact Ha|]. unfold a. rewrite Hc. by cbn.
  - apply Qlt_alt in Hc. eexists. split; [reflexivity|]. rewrite Qred_correct.
    split.
    + intros Hpos. exfalso. apply (Qlt_irrefl 0). by apply Qlt_trans with x.
    + intros _. apply (Qopp_le_compat 0) in Hr. exact Hr.
  - eexists. split; [reflexivity|]. rewrite Qred_correct. split; [done|].
    apply Qgt_alt in Hc. intros Hneg. exfalso. apply (Qlt_irrefl 0).
    by apply Qlt_trans with x.
Qed.

(** *** Age and expiry *)

Lemma age_in_sec_at_eq (ts t : Z) :
  age_in_sec_at ts t
  = match round64 (inject_Z (ts - t) / inject_Z 1000) with
    | Finite q => Ok (JFloat (Finite q))
    | Inf _ => Raise OverflowError
    end.
Proof. reflexivity. Qed.

Lemma py_gt_float_int (q : Q) (m : Z) :
  py_gt (JFloat (Finite q)) (JInt m)
  = Ok match (inject_Z m ?= q)%Q with
       | Lt => true
       | _ => false
       end.
Proof. reflexivity. Qed.

Lemma age_abs (d : Z) :
  d ≠ 0 → Z.abs d < 2 ^ 1000 →
  ((1 # 1024) <= Qabs (inject_Z d / inject_Z 1000))%Q
  ∧ (Qabs (inject_Z d / inject_Z 1000) < Qpower 2 1023)%Q.
Proof.
  intros Hd Hmax.
  assert (Habs : (Qabs (inject_Z d / inject_Z 1000)
                  == inject_Z (Z.abs d) / inject_Z 1000)%Q).
  { unfold Qdiv. rewrite Qabs_Qmult. cbn [Qabs Qinv inject_Z Qnum Qden Z.abs].
    reflexivity. }
  rewrite Habs. split.
  - apply Qle_shift_div_l; [reflexivity|].
    apply Qle_trans with 1%Q; [by cbn|].
    rewrite <- (Zle_Qle 1). lia.
  - apply Qlt_shift_div_r; [reflexivity|].
    apply Qlt_le_trans with (inject_Z (2 ^ 1000)); [by rewrite <- Zlt_Qlt|].
    rewrite <- (pow2_Z 1000) by lia.
    rewrite <- (Qmult_1_r (Qpower 2 1000)).
    apply Qle_trans with (Qpower 2 1023 * 1)%Q.
    + apply Qmult_le_compat_r; [apply pow2_le; lia|by cbn].
    + apply Qmult_le_l; [apply pow2_pos|by cbn].
Qed.

(** Within 2^1000 milliseconds the division does not overflow. *)
Lemma age_defined (ts t : Z) :
  Z.abs (ts - t) < 2 ^ 1000 →
  ∃ q, age_in_sec_at ts t = Ok (JFloat (Finite q)).
Proof.
  intros Hmax. rewrite age_in_sec_at_eq.
  destruct (Z.eq_dec (ts - t) 0) as [-> |Hd]; [by eexists|].
  destruct (age_abs _ Hd Hmax) as [Hlo Hhi].
  destruct (round64_finite _ Hlo Hhi) as (r & -> & _). by eexists.
Qed.

(** In milliseconds: up to [m * 1000] milliseconds the computed age does
    not exceed [m] seconds, for [m] below 2^53. *)
Lemma age_fresh_ms (ts t m : Z) :
  Z.abs (ts - t) < 2 ^ 1000 → 0 ≤ m < 2 ^ 53 → ts - t ≤ m * 1000 →
  ∃ age, age_in_sec_at ts t = Ok age ∧ expired_at (Some m) age = Ok false.
Proof.
  intros Hmax Hm Hd. rewrite age_in_sec_at_eq. cbn [expired_at].
  set (x := (inject_Z (ts - t) / inject_Z 1000)%Q).
  assert (Hxm : (x <= inject_Z m)%Q).
  { unfold x. apply Qle_shift_div_r; [reflexivity|].
    rewrite <- inject_Z_mult, <- Zle_Qle. lia. }
  assert (Hle : ∃ r, round64 x = Finite r ∧ (r <= inject_Z m)%Q).
  { destruct (Z.lt_trichotomy (ts - t) 0) as [Hneg|[Hz|Hpos]].
    - destruct (age_abs (ts - t) ltac:(lia) Hmax) as [Hlo Hhi].
      destruct (round64_finite _ Hlo Hhi) as (r & Hr & _ & Hsign).
      exists r. split; [exact Hr|].
      apply Qle_trans with 0%Q; [|apply inject_Z_nonneg; lia].
      apply Hsign. unfold x. apply Qlt_shift_div_r; [reflexivity|].
      rewrite Qmult_0_l. rewrite <- (Zlt_Qlt _ 0). lia.
    - exists 0%Q. unfold x. rewrite Hz. split; [reflexivity|].
      apply inject_Z_nonneg. lia.
    - apply round64_le_int; [|exact Hxm|lia].
      unfold x. apply Qlt_shift_div_l; [reflexivity|].
      rewrite Qmult_0_l. rewrite <- (Zlt_Qlt 0). lia. }
  destruct Hle as (r & -> & Hr). eexists. split; [reflexivity|].
  rewrite py_gt_float_int. f_equal.
  destruct (inject_Z m ?= r)%Q eqn:E; try reflexivity.
  apply Qlt_alt in E. exfalso. apply (Qlt_irrefl r).
  by apply Qle_lt_trans with (inject_Z m).
Qed.

(** Past [m * 1000] milliseconds the computed age exceeds [m] seconds, for
    [m] below 2^43. *)
Lemma age_stale_ms (ts t m : Z) :
  Z.abs (ts - t) < 2 ^ 1000 → 0 ≤ m < 2 ^ 43 → m * 1000 < ts - t →
  ∃ age, age_in_sec_at ts t = Ok age ∧ expired_at (Some m) age = Ok true.
Proof.
  intros Hmax Hm Hd. rewrite age_in_sec_at_eq. cbn [expired_at].
  set (x := (inject_Z (ts - t) / inject_Z 1000)%Q).
  assert (Hgt : ∃ r, round64 x = Finite r ∧ (inject_Z m < r)%Q).
  { apply round64_gt_int; [lia|lia| |].
    - apply Qle_trans with (inject_Z (m * 1000 + 1) / inject_Z 1000)%Q.
      + apply Qle_shift_div_l; [reflexivity|].
        rewrite inject_Z_plus, inject_Z_mult.
        rewrite Qmult_plus_distr_l. apply Qplus_le_r. by cbn.
      + unfold x, Qdiv. apply Qmult_le_compat_r; [|by cbn].
        rewrite <- Zle_Qle. lia.
    - destruct (age_abs (ts - t) ltac:(lia) Hmax) as [_ Hhi].
      eapply Qle_lt_trans; [apply Qle_Qabs|exact Hhi]. }
  destruct Hgt as (r & -> & Hr). eexists. split; [reflexivity|].
  rewrite py_gt_float_int. f_equal.
  assert (Hc : (inject_Z m ?= r)%Q = Lt) by (by apply Qlt_alt).
  by rewrite Hc.
Qed.

(** [_validate] on a payload that holds a value and an integer timestamp:
    the assertion passes, the clock is read once, the age is computed, and
    the result is the expiry failure or what the membership loops give. *)
Lemma validate_present (self : SCV) (uc : UserContext) (s : State)
    (r : json) (t : Z) :
  (get_value_from_payload (claim self) uc s).1 = Ok r →
  is_None r = false →
  (get_last_refetch_time (claim self) uc s).1 = Ok (JInt t) →
  validate self uc s
  = (age ← age_in_sec_at (now s) t;
     expired ← expired_at (max_age_in_sec self) age;
     if expired : bool
     then Ok {| is_valid := false;
                reason := Some {[ "message" := JStr "expired";
                                  "ageInSeconds" := age;
                                  "maxAgeInSeconds" :=
                                    from_option JInt JNull (max_age_in_sec self) ]} |}
     else check_values (include_axis (cls self)) (expected_key_of (cls self))
            (val self) r,
     tick s).
Proof.
  rewrite validate_eq, get_value_from_payload_eq, get_last_refetch_time_eq.
  cbn [fst]. intros Hv Hr Hlt.
  unfold _validate, mbind at 1 2 3 4 5 6 7, M_bind.
  rewrite get_value_from_payload_eq, Hv, Hr.
  rewrite get_last_refetch_time_eq, Hlt.
  cbn [is_None negb py_assert lift get_timestamp_ms py_sub as_num].
  fold (age_in_sec_at (now s) t).
  unfold expired_at, expected_key_of.
  destruct (age_in_sec_at (now s) t) as [age|e]; [|reflexivity].
  cbn [mbind result_bind].
  destruct (max_age_in_sec self) as [m|]; cbn [mret M_ret lift]; [|reflexivity].
  destruct (py_gt age (JInt m)) as [[]|e]; reflexivity.
Qed.

(** C7: with a value in the payload and a maximal age [m], when the age
    computed as [(now - t) / 1000] is more than [m], [validate] returns the
    "expired" failure, with that age and [m] in the reason; when the age
    equals [m] the expiry branch is passed over and the membership checks
    decide. *)
Theorem validate_expired (self : SCV) (uc : UserContext) (s : State)
    (r : json) (t m : Z) (age : float) :
  (get_value_from_payload (claim self) uc s).1 = Ok r →
  is_None r = false →
  (get_last_refetch_time (claim self) uc s).1 = Ok (JInt t) →
  max_age_in_sec self = Some m →
  age_in_sec_at (now s) t = Ok (JFloat age) →
  (float_compare age (Finite (inject_Z m)) = Gt →
   validate self uc s
   = (Ok {| is_valid := false;
            reason := Some {[ "message" := JStr "expired";
                              "ageInSeconds" := JFloat age;
                              "maxAgeInSeconds" := JInt m ]} |}, tick s))
  ∧ (float_compare age (Finite (inject_Z m)) = Eq →
     validate self uc s
     = (check_values (include_axis (cls self)) (expected_key_of (cls self))
          (val self) r, tick s)).
Proof.
  intros Hv Hr Hlt Hm Hage.
  rewrite (validate_present _ _ _ _ _ Hv Hr Hlt), Hm, Hage.
  cbn [mbind result_bind expired_at from_option].
  assert (Hfin : ∃ q, age = Finite q).
  { rewrite age_in_sec_at_eq in Hage. destruct (round64 _); [|discriminate].
    injection Hage as <-. by eexists. }
  destruct Hfin as [q ->]. rewrite py_gt_float_int. cbn [float_compare].
  split; intros Hcmp.
  - assert (Hc : (inject_Z m ?= q)%Q = Lt) by (by apply Qlt_alt, Qgt_alt).
    by rewrite Hc.
  - assert (Hc : (inject_Z m ?= q)%Q = Eq).
    { apply Qeq_alt. symmetry. by apply Qeq_alt. }
    by rewrite Hc.
Qed.

Lemma validate_expired_witness :
  let self := includes (validators roles) (JStr "admin") None (Some 300) in
  let p := {[ "st-roles" := JDict {[ "v" := JList [JStr "admin"];
                                     "t" := JInt 1000 ]} ]} : gmap string json in
  (validate self None (state_at p 302000)).1
  = Ok {| is_valid := false;
          reason := Some {[ "message" := JStr "expired";
                            "ageInSeconds" := JFloat (Finite 301);
                            "maxAgeInSeconds" := JInt 300 ]} |}
  ∧ (validate self None (state_at p 301000)).1
    = Ok {| is_valid := true; reason := None |}.
Proof.
  intros self p. split.
  - rewrite (proj1 (validate_expired self None (state_at p 302000)
                      (JList [JStr "admin"]) 1000 300 (Finite 301)
                      ltac:(vm_compute; reflexivity) ltac:(reflexivity)
                      ltac:(vm_compute; reflexivity) ltac:(reflexivity)
                      ltac:(vm_compute; reflexivity))
               ltac:(vm_compute; reflexivity)).
    reflexivity.
  - rewrite (proj2 (validate_expired self None (state_at p 301000)
                      (JList [JStr "admin"]) 1000 300 (Finite 300)
                      ltac:(vm_compute; reflexivity) ltac:(reflexivity)
                      ltac:(vm_compute; reflexivity) ltac:(reflexivity)
                      ltac:(vm_compute; reflexivity))
               ltac:(vm_compute; reflexivity)).
    vm_compute. reflexivity.
Defined.

(** *** The membership loops *)

Lemma check_values_eq (is_include : bool) (expected_key : string)
    (val claim_val : json) (cs : list json) :
  py_set claim_val = Ok cs →
  check_values is_include expected_key val claim_val
  = membership_loop is_include (normalize val) cs
      (wrong_value expected_key (normalize val) claim_val).
Proof.
  intros Hset. unfold check_values. rewrite Hset.
  destruct is_include; reflexivity.
Qed.

(** The first element on the wrong side of the set ends the loop, whatever
    comes after it. *)
Lemma membership_loop_first_failure (is_include : bool) (cs : list json)
    (failure : ClaimValidationResult) (pre : list json) (v : json)
    (post : list json) :
  Forall (λ u, py_in u cs = Ok is_include) pre →
  py_in v cs = Ok (negb is_include) →
  membership_loop is_include (pre ++ v :: post) cs failure = Ok failure.
Proof.
  intros Hpre Hv. induction Hpre as [|u pre Hu _ IH].
  - destruct is_include; cbn [app membership_loop includes_loop excludes_loop];
      rewrite Hv; reflexivity.
  - destruct is_include;
      cbn [app membership_loop includes_loop excludes_loop] in *;
      rewrite Hu; cbn; exact IH.
Qed.

(** When every element is on the right side, the loop runs to its end. *)
Lemma membership_loop_all_pass (is_include : bool) (cs : list json)
    (failure : ClaimValidationResult) (vs : list json) :
  Forall (λ u, py_in u cs = Ok is_include) vs →
  membership_loop is_include vs cs failure = Ok valid_result.
Proof.
  induction 1 as [|u vs Hu _ IH].
  - destruct is_include; reflexivity.
  - destruct is_include;
      cbn [membership_loop includes_loop excludes_loop] in *;
      rewrite Hu; cbn; exact IH.
Qed.

(** Over hashable elements one of the two happens. *)
Lemma membership_loop_hashable (is_include : bool) (cs : list json)
    (vs : list json) :
  Forall (λ u, hashable u = true) vs →
  Forall (λ u, py_in u cs = Ok is_include) vs
  ∨ ∃ pre v post, vs = pre ++ v :: post
                  ∧ Forall (λ u, py_in u cs = Ok is_include) pre
                  ∧ py_in v cs = Ok (negb is_include).
Proof.
  induction 1 as [|u vs Hu _ IH].
  - left. constructor.
  - assert (Hin : py_in u cs = Ok is_include ∨ py_in u cs = Ok (negb is_include)).
    { unfold py_in. rewrite Hu.
      destruct (existsb (py_eq u) cs), is_include; auto. }
    destruct Hin as [Hin|Hin].
    + destruct IH as [IH|(pre & v & post & -> & Hpre & Hv)].
      * left. by constructor.
      * right. exists (u :: pre), v, post. split_and!; [done| |done].
        by constructor.
    + right. exists [], u, vs. split_and!; [done| |done]. constructor.
Qed.

(** The loops and [set] raise nothing but [TypeError]. *)
Lemma membership_loop_raises (is_include : bool) (cs : list json)
    (failure : ClaimValidationResult) (vs : list json) (e : exn) :
  membership_loop is_include vs cs failure = Raise e → e = TypeError.
Proof.
  induction vs as [|u vs IH].
  - destruct is_include; discriminate.
  - destruct is_include;
      cbn [membership_loop includes_loop excludes_loop] in *;
      unfold py_in; destruct (hashable u); cbn;
      try (intros [= <-]; reflexivity);
      destruct (existsb (py_eq u) cs); cbn; try discriminate; exact IH.
Qed.

Lemma check_values_raises (is_include : bool) (expected_key : string)
    (val claim_val : json) (e : exn) :
  check_values is_include expected_key val claim_val = Raise e → e = TypeError.
Proof.
  destruct (py_set claim_val) as [cs|e'] eqn:Hset.
  - rewrite (check_values_eq _ _ _ _ _ Hset). apply membership_loop_raises.
  - unfold check_values. rewrite Hset. cbn. intros [= <-].
    unfold py_set in Hset. destruct (py_iter claim_val) as [l|e''] eqn:Hit; cbn in Hset.
    + destruct (forallb hashable l); congruence.
    + destruct claim_val; cbn in Hit; congruence.
Qed.

(** C1: with a value in the payload that is not expired, [validate] turns
    the configured value into a sequence (a scalar into a one-element one)
    and walks it against the set of the claim value.  The first element that
    is absent from the set (include classes) or present in it (exclude
    classes) ends the walk with the "wrong value" failure, whatever follows
    it; when no element is, the result is valid without a reason; and over
    hashable elements the failure comes exactly when some element is on the
    wrong side. *)
Theorem validate_membership (self : SCV) (uc : UserContext) (s : State)
    (r : json) (t : Z) (age : json) (cs : list json) :
  (get_value_from_payload (claim self) uc s).1 = Ok r →
  is_None r = false →
  (get_last_refetch_time (claim self) uc s).1 = Ok (JInt t) →
  age_in_sec_at (now s) t = Ok age →
  expired_at (max_age_in_sec self) age = Ok false →
  py_set r = Ok cs →
  let inc := include_axis (cls self) in
  let vals := normalize (val self) in
  let invalid :=
    {| is_valid := false;
       reason := Some {[ "message" := JStr "wrong value";
                         expected_key_of (cls self) := JList vals;
                         "actualValue" := r ]} |} in
  let valid := {| is_valid := true; reason := None |} in
  (∀ x, (∀ l, val self ≠ JList l) → val self = x → vals = [x])
  ∧ (∀ pre v post,
       vals = pre ++ v :: post →
       Forall (λ u, py_in u cs = Ok inc) pre →
       py_in v cs = Ok (negb inc) →
       validate self uc s = (Ok invalid, tick s))
  ∧ (Forall (λ u, py_in u cs = Ok inc) vals →
     validate self uc s = (Ok valid, tick s))
  ∧ (Forall (λ u, hashable u = true) vals →
     ∃ res, validate self uc s = (Ok res, tick s)
            ∧ (res = invalid ∨ res = valid)
            ∧ (res = invalid ↔ ∃ v, v ∈ vals ∧ py_in v cs = Ok (negb inc))).
Proof.
  intros Hv Hr Hlt Hage Hfresh Hset inc vals invalid valid.
  assert (Hrun : validate self uc s
                 = (membership_loop inc vals cs invalid, tick s)).
  { rewrite (validate_present _ _ _ _ _ Hv Hr Hlt), Hage.
    cbn [mbind result_bind]. rewrite Hfresh. cbn [mbind result_bind].
    by rewrite (check_values_eq _ _ _ _ _ Hset). }
  assert (Hfirst : ∀ pre v post,
            vals = pre ++ v :: post →
            Forall (λ u, py_in u cs = Ok inc) pre →
            py_in v cs = Ok (negb inc) →
            validate self uc s = (Ok invalid, tick s)).
  { intros pre v post Heq Hpre Hfail. rewrite Hrun, Heq.
    by rewrite membership_loop_first_failure. }
  assert (Hall : Forall (λ u, py_in u cs = Ok inc) vals →
                 validate self uc s = (Ok valid, tick s)).
  { intros Hpass. rewrite Hrun. by rewrite membership_loop_all_pass. }
  split_and!; [|exact Hfirst|exact Hall|].
  - intros x Hscalar <-. subst vals. unfold normalize.
    destruct (val self); try done. by destruct (Hscalar l).
  - intros Hhash.
    destruct (membership_loop_hashable inc cs vals Hhash)
      as [Hpass|(pre & v & post & Heq & Hpre & Hfail)].
    + exists valid. split_and!; [by apply Hall|by right|].
      split; [discriminate|].
      intros (v & Hin & Hfail). exfalso.
      rewrite Forall_forall in Hpass. rewrite (Hpass v Hin) in Hfail.
      injection Hfail. by destruct inc.
    + exists invalid. split_and!; [by eapply Hfirst|by left|].
      split; [|done]. intros _. exists v. split; [|done].
      rewrite Heq. set_solver.
Qed.

Lemma validate_membership_witness :
  let p := {[ "st-roles" := JDict {[ "v" := JList [JInt 1; JInt 2; JInt 3];
                                     "t" := JInt 1000 ]} ]} : gmap string json in
  let s := state_at p 2000 in
  (validate (excludes_all (validators roles) (JList [JInt 4; JInt 5]) None None)
     None s).1 = Ok {| is_valid := true; reason := None |}
  ∧ (validate (excludes_all (validators roles) (JList [JInt 2; JList []]) None None)
       None s).1
    = Ok {| is_valid := false;
            reason := Some {[ "message" := JStr "wrong value";
                              "expectedToNotInclude" := JList [JInt 2; JList []];
                              "actualValue" := JList [JInt 1; JInt 2; JInt 3] ]} |}.
Proof.
  intros p s.
  split.
  - pose proof (validate_membership
      (excludes_all (validators roles) (JList [JInt 4; JInt 5]) None None)
      None s (JList [JInt 1; JInt 2; JInt 3]) 1000 (JFloat (Finite 1))
      [JInt 1; JInt 2; JInt 3]
      ltac:(vm_compute; reflexivity) ltac:(reflexivity)
      ltac:(vm_compute; reflexivity) ltac:(vm_compute; reflexivity)
      ltac:(vm_compute; reflexivity) ltac:(reflexivity))
      as (_ & _ & Hall & _).
    rewrite Hall; [reflexivity|].
    repeat constructor.
  - pose proof (validate_membership
      (excludes_all (validators roles) (JList [JInt 2; JList []]) None None)
      None s (JList [JInt 1; JInt 2; JInt 3]) 1000 (JFloat (Finite 1))
      [JInt 1; JInt 2; JInt 3]
      ltac:(vm_compute; reflexivity) ltac:(reflexivity)
      ltac:(vm_compute; reflexivity) ltac:(vm_compute; reflexivity)
      ltac:(vm_compute; reflexivity) ltac:(reflexivity))
      as (_ & Hfirst & _).
    rewrite (Hfirst [] (JInt 2) [JList []]); [reflexivity|reflexivity| |reflexivity].
    constructor.
Defined.

(** C9: on a payload that keeps the sub-document invariant, a value comes
    with its timestamp and the assertion in [validate] does not fail; on a
    payload where the value is there and the timestamp is not, [validate]
    stops on [AssertionError] instead of giving a result. *)
Theorem validate_timestamp_assertion (self : SCV) (uc : UserContext) (s : State) :
  (subdoc_invariant (key (claim self)) (payload s) = true →
   (∀ r, (get_value_from_payload (claim self) uc s).1 = Ok r →
         is_None r = false →
         ∃ t, (get_last_refetch_time (claim self) uc s).1 = Ok (JInt t))
   ∧ (∃ r, (get_value_from_payload (claim self) uc s).1 = Ok r)
   ∧ (validate self uc s).1 ≠ Raise AssertionError)
  ∧ (∀ r, (get_value_from_payload (claim self) uc s).1 = Ok r →
          is_None r = false →
          (get_last_refetch_time (claim self) uc s).1 = Ok JNull →
          validate self uc s = (Raise AssertionError, s)).
Proof.
  split.
  - intros Hinv.
    assert (Hreads : ∃ r, (get_value_from_payload (claim self) uc s).1 = Ok r
              ∧ (is_None r = false →
                 ∃ t, (get_last_refetch_time (claim self) uc s).1 = Ok (JInt t))).
    { rewrite get_value_from_payload_eq, get_last_refetch_time_eq. cbn [fst].
      unfold subdoc_invariant in Hinv.
      destruct (payload s !! key (claim self)) as [e|];
        cbn [from_option Datatypes.id] in *.
      - destruct e; try discriminate. cbn [has_v_and_t py_get] in *.
        destruct (d !! "v") as [v|]; [|discriminate].
        destruct (d !! "t") as [[]|]; try discriminate.
        exists v. split; [done|]. intros _. by eexists.
      - cbn [py_get]. rewrite lookup_empty. by exists JNull. }
    destruct Hreads as (r & Hv & Ht).
    split_and!.
    + intros r' Hv' Hr'. rewrite Hv in Hv'. injection Hv' as <-. by apply Ht.
    + by exists r.
    + destruct (is_None r) eqn:Hr.
      * destruct r; try discriminate. rewrite validate_eq.
        by destruct (_validate_absent self uc (include_axis (cls self)) s Hv)
          as (res & -> & _).
      * destruct (Ht eq_refl) as [t Hlt].
        rewrite (validate_present _ _ _ _ _ Hv Hr Hlt). cbn [fst].
        rewrite age_in_sec_at_eq.
        destruct (round64 _) as [q|]; cbn [mbind result_bind]; [|discriminate].
        destruct (max_age_in_sec self) as [m|]; cbn [expired_at mbind result_bind].
        -- rewrite py_gt_float_int. cbn [mbind result_bind].
           destruct (inject_Z m ?= q)%Q; try discriminate;
             intros Hraise; by apply check_values_raises in Hraise.
        -- intros Hraise. by apply check_values_raises in Hraise.
  - intros r. rewrite validate_eq, get_value_from_payload_eq, get_last_refetch_time_eq.
    cbn [fst]. intros Hv Hr Hlt.
    unfold _validate, mbind, M_bind.
    rewrite get_value_from_payload_eq, Hv, Hr.
    rewrite get_last_refetch_time_eq, Hlt. reflexivity.
Qed.

Lemma validate_timestamp_assertion_witness :
  let self := includes (validators roles) (JStr "admin") None None in
  let good := {[ "st-roles" := JDict {[ "v" := JList [JStr "admin"];
                                        "t" := JInt 1000 ]} ]} : gmap string json in
  let bad := {[ "st-roles" := JDict {[ "v" := JList [JStr "admin"] ]} ]}
             : gmap string json in
  (validate self None (state_at good 2000)).1 ≠ Raise AssertionError
  ∧ validate self None (state_at bad 2000)
    = (Raise AssertionError, state_at bad 2000).
Proof.
  intros self good bad. split.
  - apply (proj1 (validate_timestamp_assertion self None (state_at good 2000))).
    vm_compute. reflexivity.
  - apply (proj2 (validate_timestamp_assertion self None (state_at bad 2000))
             (JList [JStr "admin"])); vm_compute; reflexivity.
Defined.

(** ** Worked cases *)

(** A claim value [["a", "b"]]: [includes("a")] is valid, [includes("c")]
    is not, and the reason carries the one-element list [["c"]]. *)
Example includes_scalar_cases :
  let p := {[ "st-roles" := JDict {[ "v" := JList [JStr "a"; JStr "b"];
                                     "t" := JInt 1000 ]} ]} : gmap string json in
  (validate (includes (validators roles) (JStr "a") None None) None
     (state_at p 2000)).1 = Ok valid_result
  ∧ (validate (includes (validators roles) (JStr "c") None None) None
       (state_at p 2000)).1
    = Ok {| is_valid := false;
            reason := Some {[ "message" := JStr "wrong value";
                              "expectedToInclude" := JList [JStr "c"];
                              "actualValue" := JList [JStr "a"; JStr "b"] ]} |}.
Proof. vm_compute. done. Qed.

(** The merge tombstone read back on an empty payload. *)
Example tombstone_on_empty_payload :
  (remove_from_payload_by_merge_ (base roles) None;;
   get_value_from_payload (base roles) None) (state_at ∅ 2000)
  = (Raise AttributeError, state_at {[ "st-roles" := JNull ]} 2000).
Proof. vm_compute. done. Qed.

(** A missing timestamp counts as 0 in [should_refetch]. *)
Example should_refetch_without_timestamp :
  (should_refetch (includes (validators roles) (JStr "a") None None) None
     (state_at {[ "st-roles" := JDict {[ "v" := JList [JStr "a"] ]} ]} 300001)).1
  = Ok true.
Proof. vm_compute. done. Qed.

(** Rounding as binary64 does it: [1 / 10], [1 / 3], a tie that goes to
    the even neighbour, and the first value out of range. *)
Example round64_cases :
  round64 (1 # 10) = Finite (3602879701896397 # 36028797018963968)
  ∧ round64 (1 # 3) = Finite (6004799503160661 # 18014398509481984)
  ∧ round64 (inject_Z (2 ^ 53 + 1)) = Finite (inject_Z (2 ^ 53))
  ∧ round64 (inject_Z (2 ^ 53 + 3)) = Finite (inject_Z (2 ^ 53 + 4))
  ∧ round64 (inject_Z (2 ^ 1024 - 2 ^ 970)) = Inf false.
Proof. vm_compute. done. Qed.

(** With a maximal age of 2^44 seconds, one millisecond past it: the
    integer test of [should_refetch] says stale, while the age of
    [validate] rounds down to the maximal age and is not expired. *)
Example refetch_and_expiry_part_ways :
  let self := includes (validators roles) (JStr "admin") None (Some (2 ^ 44)) in
  let p := {[ "st-roles" := JDict {[ "v" := JList [JStr "admin"];
                                     "t" := JInt 0 ]} ]} : gmap string json in
  let s := state_at p (1000 * 2 ^ 44 + 1) in
  (should_refetch self None s).1 = Ok true
  ∧ (validate self None s).1 = Ok valid_result.
Proof. vm_compute. done. Qed.

(** With a maximal age of 2^53 + 3 seconds, at exactly that age in
    milliseconds: the age rounds up to 2^53 + 4 and [validate] reports
    "expired". *)
Example expired_by_rounding :
  let m := 2 ^ 53 + 3 in
  let self := includes (validators roles) (JStr "admin") None (Some m) in
  let p := {[ "st-roles" := JDict {[ "v" := JList [JStr "admin"];
                                     "t" := JInt 0 ]} ]} : gmap string json in
  let s := state_at p (1000 * m) in
  (should_refetch self None s).1 = Ok false
  ∧ (validate self None s).1
    = Ok {| is_valid := false;
            reason := Some {[ "message" := JStr "expired";
                              "ageInSeconds" := JFloat (Finite (inject_Z (2 ^ 53 + 4)));
                              "maxAgeInSeconds" := JInt m ]} |}.
Proof. vm_compute. done. Qed.

(** ** Further properties of the payload primitives and validators *)

(** *** Helper lemmas *)

Lemma should_refetch_present (self : SCV) (uc : UserContext) (s : State)
    (r : json) (t m : Z) :
  (get_value_from_payload (claim self) uc s).1 = Ok r →
  is_None r = false →
  (get_last_refetch_time (claim self) uc s).1 = Ok (JInt t) →
  max_age_in_sec self = Some m →
  should_refetch self uc s = (Ok (t <? now s - m * 1000), tick s).
Proof.
  intros Hv Hr Hlt Hm.
  destruct (entry_of_reads _ _ _ _ _ Hv Hr Hlt) as (d & He & _ & Hdt).
  rewrite get_value_from_payload_eq in Hv. cbn [fst] in Hv.
  unfold should_refetch, mbind, M_bind.
  rewrite get_value_from_payload_eq, Hv, Hr, Hm.
  unfold payload_getitem. rewrite He. cbn [lift py_get].
  rewrite Hdt. reflexivity.
Qed.

Lemma membership_loop_results (is_include : bool) (cs : list json)
    (failure res : ClaimValidationResult) (vs : list json) :
  membership_loop is_include vs cs failure = Ok res →
  res = valid_result ∨ res = failure.
Proof.
  induction vs as [|u vs IH].
  - destruct is_include; intros [= <-]; by left.
  - destruct is_include;
      cbn [membership_loop includes_loop excludes_loop] in *;
      unfold py_in; destruct (hashable u); cbn; try discriminate;
      destruct (existsb (py_eq u) cs); cbn; try exact IH;
      intros [= <-]; by right.
Qed.

Lemma check_values_results (is_include : bool) (expected_key : string)
    (val claim_val : json) (res : ClaimValidationResult) :
  check_values is_include expected_key val claim_val = Ok res →
  res = valid_result
  ∨ res = wrong_value expected_key (normalize val) claim_val.
Proof.
  destruct (py_set claim_val) as [cs|e] eqn:Hset.
  - rewrite (check_values_eq _ _ _ _ _ Hset). apply membership_loop_results.
  - unfold check_values. rewrite Hset. discriminate.
Qed.

Lemma check_values_message (is_include : bool) (expected_key : string)
    (val claim_val : json) (res : ClaimValidationResult) :
  check_values is_include expected_key val claim_val = Ok res →
  message_of res ≠ Some (JStr "expired").
Proof.
  intros [->| ->]%check_values_results; [discriminate|].
  unfold message_of, wrong_value. cbn [reason mbind option_bind].
  rewrite lookup_insert_eq. discriminate.
Qed.

Lemma float_compare_refl (f : float) : float_compare f f = Eq.
Proof.
  destruct f as [q|[]]; cbn [float_compare]; try reflexivity.
  by apply Qeq_alt.
Qed.

Lemma py_eq_refl (v : json) : hashable v = true → py_eq v v = true.
Proof.
  destruct v; try discriminate; intros _; unfold py_eq; cbn [as_num];
    try reflexivity; try (unfold float_eq; by rewrite float_compare_refl).
  by apply bool_decide_eq_true.
Qed.

Lemma py_in_elem (v : json) (l : list json) :
  hashable v = true → v ∈ l → py_in v l = Ok true.
Proof.
  intros Hh Hin. unfold py_in. rewrite Hh. f_equal.
  apply existsb_exists. exists v. split; [by apply list_elem_of_In|].
  by apply py_eq_refl.
Qed.

Lemma py_set_list (l : list json) :
  Forall (λ u, hashable u = true) l → py_set (JList l) = Ok l.
Proof.
  intros Hl. unfold py_set. cbn [py_iter mbind result_bind].
  replace (forallb hashable l) with true; [done|].
  symmetry. apply forallb_forall. intros x Hx.
  rewrite Forall_forall in Hl. apply Hl. by apply list_elem_of_In.
Qed.

(** [_validate] past the expiry check, with the age in milliseconds:
    within 2^1000 milliseconds of the timestamp, and with a maximal age
    below 2^53 seconds that has not gone by. *)
Lemma validate_fresh (self : SCV) (uc : UserContext) (s : State)
    (r : json) (t : Z) :
  (get_value_from_payload (claim self) uc s).1 = Ok r →
  is_None r = false →
  (get_last_refetch_time (claim self) uc s).1 = Ok (JInt t) →
  Z.abs (now s - t) < 2 ^ 1000 →
  (∀ m, max_age_in_sec self = Some m → 0 ≤ m < 2 ^ 53) →
  (∀ m, max_age_in_sec self = Some m → now s - t ≤ m * 1000) →
  validate self uc s
  = (check_values (include_axis (cls self)) (expected_key_of (cls self))
       (val self) r, tick s).
Proof.
  intros Hv Hr Hlt Hmax Hm Hfresh.
  rewrite (validate_present _ _ _ _ _ Hv Hr Hlt).
  destruct (max_age_in_sec self) as [m|].
  - destruct (age_fresh_ms (now s) t m Hmax (Hm m eq_refl) (Hfresh m eq_refl))
      as (age & -> & Hexp).
    cbn [mbind result_bind]. by rewrite Hexp.
  - by destruct (age_defined (now s) t Hmax) as (q & ->).
Qed.

Lemma check_values_normalize (is_include : bool) (expected_key : string)
    (v1 v2 claim_val : json) :
  normalize v1 = normalize v2 →
  check_values is_include expected_key v1 claim_val
  = check_values is_include expected_key v2 claim_val.
Proof. intros Hn. unfold check_values. by rewrite Hn. Qed.

(** *** What the validators touch *)

(** X1: [validate], [should_refetch] and the two reads never write to the
    payload; the reads leave the whole state alone, and a validator reads
    the clock at most once. *)
Theorem validators_only_read (self : SCV) (uc : UserContext) (s : State) :
  ((validate self uc s).2 = s ∨ (validate self uc s).2 = tick s)
  ∧ ((should_refetch self uc s).2 = s ∨ (should_refetch self uc s).2 = tick s)
  ∧ (get_value_from_payload (claim self) uc s).2 = s
  ∧ (get_last_refetch_time (claim self) uc s).2 = s.
Proof.
  split_and!; [| |reflexivity..].
  - rewrite validate_eq. unfold _validate. run_M.
    repeat case_match; simplify_eq; auto.
  - unfold should_refetch. run_M.
    repeat case_match; simplify_eq; auto.
Qed.

(** *** Refetching and expiry *)

(** X2: on a payload with a value and an integer timestamp less than
    2^1000 milliseconds away, and with a maximal age from 0 to below 2^43
    seconds, [should_refetch] answers true exactly when [validate], at the
    same clock reading, reports "expired". *)
Theorem refetch_iff_expired (self : SCV) (uc : UserContext) (s : State)
    (r : json) (t m : Z) :
  (get_value_from_payload (claim self) uc s).1 = Ok r →
  is_None r = false →
  (get_last_refetch_time (claim self) uc s).1 = Ok (JInt t) →
  max_age_in_sec self = Some m →
  0 ≤ m < 2 ^ 43 →
  Z.abs (now s - t) < 2 ^ 1000 →
  ((should_refetch self uc s).1 = Ok true ↔
   ∃ res, (validate self uc s).1 = Ok res
          ∧ message_of res = Some (JStr "expired"))
  ∧ (∃ b, (should_refetch self uc s).1 = Ok b).
Proof.
  intros Hv Hr Hlt Hm Hbound Hmax.
  rewrite (should_refetch_present _ _ _ _ _ _ Hv Hr Hlt Hm).
  rewrite (validate_present _ _ _ _ _ Hv Hr Hlt), Hm.
  cbn [fst]. split; [|by eexists].
  destruct (Z.ltb_spec t (now s - m * 1000)) as [Hstale|Hfresh].
  - destruct (age_stale_ms (now s) t m Hmax Hbound ltac:(lia))
      as (age & -> & Hexp).
    cbn [mbind result_bind]. rewrite Hexp. cbn [mbind result_bind].
    split; [|done]. intros _. eexists. split; [done|].
    unfold message_of. cbn [reason mbind option_bind].
    by rewrite lookup_insert_eq.
  - assert (Hm53 : 0 ≤ m < 2 ^ 53).
    { assert (2 ^ 43 < 2 ^ 53) by (apply Z.pow_lt_mono_r; lia). lia. }
    destruct (age_fresh_ms (now s) t m Hmax Hm53 ltac:(lia))
      as (age & -> & Hexp).
    cbn [mbind result_bind]. rewrite Hexp. cbn [mbind result_bind].
    split; [discriminate|]. intros (res & Hres & Hmsg).
    by apply check_values_message in Hres.
Qed.

Lemma refetch_iff_expired_witness :
  let self := includes (validators roles) (JStr "admin") None (Some 300) in
  let p := {[ "st-roles" := JDict {[ "v" := JList [JStr "admin"];
                                     "t" := JInt 1000 ]} ]} : gmap string json in
  ∃ res, (validate self None (state_at p 302000)).1 = Ok res
         ∧ message_of res = Some (JStr "expired").
Proof.
  intros self p.
  assert (Hmax : Z.abs (now (state_at p 302000) - 1000) < 2 ^ 1000).
  { apply Z.lt_le_trans with (2 ^ 19); [vm_compute; reflexivity|].
    apply Z.pow_le_mono_r; lia. }
  assert (Hm : 0 ≤ 300 < 2 ^ 43) by (split; [lia|vm_compute; reflexivity]).
  apply (proj1 (refetch_iff_expired self None (state_at p 302000)
                  (JList [JStr "admin"]) 1000 300
                  ltac:(vm_compute; reflexivity) ltac:(reflexivity)
                  ltac:(vm_compute; reflexivity) ltac:(reflexivity) Hm Hmax)).
  vm_compute. reflexivity.
Defined.

(** X3: a sub-document with a value and no timestamp counts as fetched at
    time 0 in [should_refetch], which answers without raising, while
    [validate] stops on its assertion. *)
Theorem should_refetch_missing_timestamp (self : SCV) (uc : UserContext)
    (s : State) (d : gmap string json) (r : json) (m : Z) :
  payload s !! key (claim self) = Some (JDict d) →
  d !! "v" = Some r →
  is_None r = false →
  d !! "t" = None →
  max_age_in_sec self = Some m →
  should_refetch self uc s = (Ok (m * 1000 <? now s), tick s)
  ∧ validate self uc s = (Raise AssertionError, s).
Proof.
  intros He Hdv Hr Hdt Hm. split.
  - unfold should_refetch. run_M.
    repeat (rewrite ?He, ?Hdv, ?Hr, ?Hdt, ?Hm;
            cbn [from_option Datatypes.id py_get py_lt as_num]).
    do 2 f_equal. apply eq_true_iff_eq. rewrite !Z.ltb_lt. lia.
  - rewrite validate_eq. unfold _validate. run_M.
    repeat (rewrite ?He, ?Hdv, ?Hr, ?Hdt, ?Hm;
            cbn [from_option Datatypes.id py_get]).
    reflexivity.
Qed.

Lemma should_refetch_missing_timestamp_witness :
  let self := includes (validators roles) (JStr "admin") None (Some 300) in
  let p := {[ "st-roles" := JDict {[ "v" := JList [JStr "admin"] ]} ]}
           : gmap string json in
  (should_refetch self None (state_at p 300001)).1 = Ok true
  ∧ (should_refetch self None (state_at p 300000)).1 = Ok false.
Proof.
  intros self p.
  pose (d := ({[ "v" := JList [JStr "admin"] ]} : gmap string json)).
  split.
  - rewrite (proj1 (should_refetch_missing_timestamp self None (state_at p 300001)
                      d (JList [JStr "admin"]) 300
                      ltac:(vm_compute; reflexivity) ltac:(vm_compute; reflexivity)
                      ltac:(reflexivity) ltac:(vm_compute; reflexivity)
                      ltac:(reflexivity))).
    reflexivity.
  - rewrite (proj1 (should_refetch_missing_timestamp self None (state_at p 300000)
                      d (JList [JStr "admin"]) 300
                      ltac:(vm_compute; reflexivity) ltac:(vm_compute; reflexivity)
                      ltac:(reflexivity) ltac:(vm_compute; reflexivity)
                      ltac:(reflexivity))).
    reflexivity.
Defined.

(** X4: when the claim's key holds anything but a dict ([None], a number,
    a string, a list), the two reads, [should_refetch] and [validate] all
    raise [AttributeError] and leave the state alone. *)
Theorem non_dict_entry_raises (self : SCV) (uc : UserContext) (s : State)
    (e : json) :
  payload s !! key (claim self) = Some e →
  (∀ d, e ≠ JDict d) →
  get_value_from_payload (claim self) uc s = (Raise AttributeError, s)
  ∧ get_last_refetch_time (claim self) uc s = (Raise AttributeError, s)
  ∧ should_refetch self uc s = (Raise AttributeError, s)
  ∧ validate self uc s = (Raise AttributeError, s).
Proof.
  intros He Hnd.
  assert (Hget : ∀ k dflt, py_get e k dflt = Raise AttributeError).
  { intros k dflt. destruct e; try reflexivity. by destruct (Hnd d). }
  rewrite validate_eq. unfold _validate, should_refetch. run_M.
  rewrite He. cbn [from_option Datatypes.id]. rewrite !Hget. done.
Qed.

Lemma non_dict_entry_raises_witness :
  let self := excludes (validators roles) (JStr "admin") None None in
  let s := state_at {[ "st-roles" := JList [JStr "admin"] ]} 2000 in
  should_refetch self None s = (Raise AttributeError, s)
  ∧ validate self None s = (Raise AttributeError, s).
Proof.
  intros self s.
  pose proof (non_dict_entry_raises self None s (JList [JStr "admin"])
                ltac:(vm_compute; reflexivity) ltac:(discriminate))
    as (_ & _ & Hr & Hv).
  by split.
Defined.

(** X5: right after [add_to_payload_] of a value other than [None],
    [should_refetch] asks for a refetch exactly when more than the maximal
    age has gone by between the clock reading of the add and its own; with
    no maximal age it answers false without reading the clock. *)
Theorem should_refetch_after_add (self : SCV) (value : json)
    (uc uc' : UserContext) (s : State) :
  is_None value = false →
  let s1 := (add_to_payload_ (claim self) value uc s).2 in
  should_refetch self uc' s1
  = (Ok match max_age_in_sec self with
        | Some m => m * 1000 <? now s1 - now s
        | None => false
        end, match max_age_in_sec self with Some _ => tick s1 | None => s1 end).
Proof.
  intros Hval s1. subst s1. rewrite add_to_payload__eq. cbn [snd].
  unfold should_refetch. run_M. cbn [payload].
  destruct (max_age_in_sec self) as [m|];
    repeat (rewrite ?lookup_insert_eq, ?Hval;
            cbn [from_option Datatypes.id py_get payload]); [|done].
  rewrite lookup_insert_ne by discriminate. rewrite lookup_singleton_eq.
  cbn [from_option Datatypes.id py_lt as_num]. do 2 f_equal.
  apply eq_true_iff_eq. rewrite !Z.ltb_lt. lia.
Qed.

Lemma should_refetch_after_add_witness :
  let self := includes (validators roles) (JStr "admin") None (Some 300) in
  let s := {| payload := ∅;
              clock := {| readings := λ n, 1000 + 300000 * Z.of_nat n;
                          cursor := 0 |} |} in
  (should_refetch self None
     (add_to_payload_ (claim self) (JList [JStr "admin"]) None s).2).1
  = Ok false.
Proof.
  intros self s.
  rewrite (should_refetch_after_add self (JList [JStr "admin"]) None None s
             ltac:(reflexivity)).
  vm_compute. reflexivity.
Defined.

(** *** Membership *)

(** X6: on a fresh list of hashable values, a validator whose elements all
    occur in the stored list is valid on the include axis, and, when it has
    an element at all, fails with "wrong value" on the exclude axis.  Fresh
    is in milliseconds: the timestamp is less than 2^1000 ms away, and a
    maximal age, if set, is from 0 to below 2^53 seconds and has not gone
    by. *)
Theorem stored_elements_are_found (self : SCV) (uc : UserContext) (s : State)
    (l : list json) (t : Z) :
  (get_value_from_payload (claim self) uc s).1 = Ok (JList l) →
  (get_last_refetch_time (claim self) uc s).1 = Ok (JInt t) →
  Z.abs (now s - t) < 2 ^ 1000 →
  (∀ m, max_age_in_sec self = Some m → 0 ≤ m < 2 ^ 53) →
  (∀ m, max_age_in_sec self = Some m → now s - t ≤ m * 1000) →
  Forall (λ u, hashable u = true) l →
  normalize (val self) ⊆ l →
  (include_axis (cls self) = true →
   validate self uc s = (Ok valid_result, tick s))
  ∧ (include_axis (cls self) = false →
     normalize (val self) ≠ [] →
     validate self uc s
     = (Ok (wrong_value "expectedToNotInclude" (normalize (val self)) (JList l)),
        tick s)).
Proof.
  intros Hv Hlt Hmax Hbound Hfresh Hl Hsub.
  rewrite (validate_fresh _ _ _ _ _ Hv eq_refl Hlt Hmax Hbound Hfresh).
  rewrite (check_values_eq _ _ _ _ _ (py_set_list l Hl)).
  assert (Hin : ∀ v, v ∈ normalize (val self) → py_in v l = Ok true).
  { intros v Hv'. apply py_in_elem; [|by apply Hsub].
    rewrite Forall_forall in Hl. apply Hl. by apply Hsub. }
  unfold expected_key_of. split; intros Hax; rewrite Hax.
  - rewrite membership_loop_all_pass; [done|].
    apply Forall_forall. exact Hin.
  - intros Hne. destruct (normalize (val self)) as [|v post] eqn:Hvals; [done|].
    rewrite (membership_loop_first_failure false l _ [] v post); [done|constructor|].
    apply Hin. constructor.
Qed.

Lemma stored_elements_are_found_witness :
  let p := {[ "st-roles" := JDict {[ "v" := JList [JStr "a"; JStr "b"];
                                     "t" := JInt 1000 ]} ]} : gmap string json in
  let s := state_at p 2000 in
  validate (includes_all (validators roles) (JList [JStr "b"; JStr "a"]) None None)
    None s = (Ok valid_result, tick s)
  ∧ (validate (excludes (validators roles) (JStr "b") None None) None s).1
    = Ok (wrong_value "expectedToNotInclude" [JStr "b"]
            (JList [JStr "a"; JStr "b"])).
Proof.
  intros p s.
  assert (Hmax : Z.abs (now s - 1000) < 2 ^ 1000) by (vm_compute; reflexivity).
  assert (Hbound : ∀ m : Z, Some 300 = Some m → 0 ≤ m < 2 ^ 53).
  { intros m [= <-]. split; [lia|vm_compute; reflexivity]. }
  assert (Hfresh : ∀ m : Z, Some 300 = Some m → now s - 1000 ≤ m * 1000).
  { intros m [= <-]. vm_compute. discriminate. }
  assert (Hhash : Forall (λ u, hashable u = true) [JStr "a"; JStr "b"]).
  { repeat constructor. }
  assert (Hba : [JStr "b"; JStr "a"] ⊆ [JStr "a"; JStr "b"]).
  { intros x Hx. apply list_elem_of_In. apply list_elem_of_In in Hx.
    cbn in *. tauto. }
  assert (Hb : [JStr "b"] ⊆ [JStr "a"; JStr "b"]).
  { intros x Hx. apply list_elem_of_In. apply list_elem_of_In in Hx.
    cbn in *. tauto. }
  split.
  - apply (proj1 (stored_elements_are_found
             (includes_all (validators roles) (JList [JStr "b"; JStr "a"]) None None)
             None s [JStr "a"; JStr "b"] 1000
             ltac:(vm_compute; reflexivity) ltac:(vm_compute; reflexivity)
             Hmax Hbound Hfresh Hhash Hba)).
    reflexivity.
  - rewrite (proj2 (stored_elements_are_found
             (excludes (validators roles) (JStr "b") None None)
             None s [JStr "a"; JStr "b"] 1000
             ltac:(vm_compute; reflexivity) ltac:(vm_compute; reflexivity)
             Hmax Hbound Hfresh Hhash Hb)
             ltac:(reflexivity) ltac:(discriminate)).
    reflexivity.
Defined.

(** X7: a validator configured with the empty list is valid on either
    axis, whatever the fresh claim value holds (fresh in milliseconds, as
    in X6). *)
Theorem empty_requirement_passes (self : SCV) (uc : UserContext) (s : State)
    (r : json) (t : Z) (cs : list json) :
  (get_value_from_payload (claim self) uc s).1 = Ok r →
  is_None r = false →
  (get_last_refetch_time (claim self) uc s).1 = Ok (JInt t) →
  Z.abs (now s - t) < 2 ^ 1000 →
  (∀ m, max_age_in_sec self = Some m → 0 ≤ m < 2 ^ 53) →
  (∀ m, max_age_in_sec self = Some m → now s - t ≤ m * 1000) →
  py_set r = Ok cs →
  val self = JList [] →
  validate self uc s = (Ok valid_result, tick s).
Proof.
  intros Hv Hr Hlt Hmax Hbound Hfresh Hset Hval.
  rewrite (validate_fresh _ _ _ _ _ Hv Hr Hlt Hmax Hbound Hfresh).
  rewrite (check_values_eq _ _ _ _ _ Hset), Hval.
  by destruct (include_axis (cls self)).
Qed.

Lemma empty_requirement_passes_witness :
  let p := {[ "st-roles" := JDict {[ "v" := JList [JStr "a"];
                                     "t" := JInt 1000 ]} ]} : gmap string json in
  let s := state_at p 2000 in
  validate (includes_all (validators roles) (JList []) None None) None s
  = (Ok valid_result, tick s)
  ∧ validate (excludes_all (validators roles) (JList []) None None) None s
    = (Ok valid_result, tick s).
Proof.
  intros p s.
  assert (Hmax : Z.abs (now s - 1000) < 2 ^ 1000) by (vm_compute; reflexivity).
  assert (Hbound : ∀ m : Z, Some 300 = Some m → 0 ≤ m < 2 ^ 53).
  { intros m [= <-]. split; [lia|vm_compute; reflexivity]. }
  assert (Hfresh : ∀ m : Z, Some 300 = Some m → now s - 1000 ≤ m * 1000).
  { intros m [= <-]. vm_compute. discriminate. }
  split.
  - apply (empty_requirement_passes
             (includes_all (validators roles) (JList []) None None) None s
             (JList [JStr "a"]) 1000 [JStr "a"]
             ltac:(vm_compute; reflexivity) ltac:(reflexivity)
             ltac:(vm_compute; reflexivity) Hmax Hbound Hfresh
             ltac:(reflexivity) ltac:(reflexivity)).
  - apply (empty_requirement_passes
             (excludes_all (validators roles) (JList []) None None) None s
             (JList [JStr "a"]) 1000 [JStr "a"]
             ltac:(vm_compute; reflexivity) ltac:(reflexivity)
             ltac:(vm_compute; reflexivity) Hmax Hbound Hfresh
             ltac:(reflexivity) ltac:(reflexivity)).
Defined.

(** X8: on a fresh empty claim value (fresh in milliseconds, as in X6),
    an include validator with a hashable first element fails with "wrong
    value", and an exclude validator over hashable elements is valid. *)
Theorem empty_claim_value (self : SCV) (uc : UserContext) (s : State)
    (t : Z) (v : json) (post : list json) :
  (get_value_from_payload (claim self) uc s).1 = Ok (JList []) →
  (get_last_refetch_time (claim self) uc s).1 = Ok (JInt t) →
  Z.abs (now s - t) < 2 ^ 1000 →
  (∀ m, max_age_in_sec self = Some m → 0 ≤ m < 2 ^ 53) →
  (∀ m, max_age_in_sec self = Some m → now s - t ≤ m * 1000) →
  normalize (val self) = v :: post →
  (include_axis (cls self) = true →
   hashable v = true →
   validate self uc s
   = (Ok (wrong_value "expectedToInclude" (v :: post) (JList [])), tick s))
  ∧ (include_axis (cls self) = false →
     Forall (λ u, hashable u = true) (v :: post) →
     validate self uc s = (Ok valid_result, tick s)).
Proof.
  intros Hv Hlt Hmax Hbound Hfresh Hvals.
  rewrite (validate_fresh _ _ _ _ _ Hv eq_refl Hlt Hmax Hbound Hfresh).
  rewrite (check_values_eq _ _ _ (JList []) [] eq_refl), Hvals.
  unfold expected_key_of.
  split; intros Hax Hh; rewrite Hax.
  - rewrite (membership_loop_first_failure true [] _ [] v post); [done|constructor|].
    unfold py_in. by rewrite Hh.
  - rewrite membership_loop_all_pass; [done|].
    eapply Forall_impl; [exact Hh|]. intros u Hu. unfold py_in. by rewrite Hu.
Qed.

Lemma empty_claim_value_witness :
  let p := {[ "st-roles" := JDict {[ "v" := JList []; "t" := JInt 1000 ]} ]}
           : gmap string json in
  let s := state_at p 2000 in
  (validate (includes (validators roles) (JStr "a") None None) None s).1
  = Ok (wrong_value "expectedToInclude" [JStr "a"] (JList []))
  ∧ (validate (excludes (validators roles) (JStr "a") None None) None s).1
    = Ok valid_result.
Proof.
  intros p s.
  assert (Hmax : Z.abs (now s - 1000) < 2 ^ 1000) by (vm_compute; reflexivity).
  assert (Hbound : ∀ m : Z, Some 300 = Some m → 0 ≤ m < 2 ^ 53).
  { intros m [= <-]. split; [lia|vm_compute; reflexivity]. }
  assert (Hfresh : ∀ m : Z, Some 300 = Some m → now s - 1000 ≤ m * 1000).
  { intros m [= <-]. vm_compute. discriminate. }
  split.
  - rewrite (proj1 (empty_claim_value
               (includes (validators roles) (JStr "a") None None) None s
               1000 (JStr "a") []
               ltac:(vm_compute; reflexivity) ltac:(vm_compute; reflexivity)
               Hmax Hbound Hfresh ltac:(reflexivity))
               ltac:(reflexivity) ltac:(reflexivity)).
    reflexivity.
  - rewrite (proj2 (empty_claim_value
               (excludes (validators roles) (JStr "a") None None) None s
               1000 (JStr "a") []
               ltac:(vm_compute; reflexivity) ltac:(vm_compute; reflexivity)
               Hmax Hbound Hfresh ltac:(reflexivity))
               ltac:(reflexivity) ltac:(repeat constructor)).
    reflexivity.
Defined.

(** X13: once the payload holds a value, [validate] depends on the
    configured value only through its normalized sequence: validators of the
    same axis, claim and maximal age whose values normalize alike (a scalar
    and its one-element list) give the same outcome. *)
Theorem validate_up_to_normalize (a b : SCV) (uc : UserContext) (s : State) :
  include_axis (cls a) = include_axis (cls b) →
  claim a = claim b →
  max_age_in_sec a = max_age_in_sec b →
  normalize (val a) = normalize (val b) →
  (get_value_from_payload (claim a) uc s).1 ≠ Ok JNull →
  validate a uc s = validate b uc s.
Proof.
  intros Hax Hc Hm Hn. rewrite !validate_eq, <- Hax.
  unfold _validate. rewrite <- Hc, <- Hm. run_M. intros Hv.
  destruct (py_get _ "v" JNull) as [r|e]; [|done].
  destruct (is_None r) eqn:Hr; [by destruct r|].
  rewrite (check_values_normalize _ _ (val a) (val b)) by done.
  reflexivity.
Qed.

Lemma validate_up_to_normalize_witness :
  let p := {[ "st-roles" := JDict {[ "v" := JList [JStr "a"; JStr "b"];
                                     "t" := JInt 1000 ]} ]} : gmap string json in
  validate (includes (validators roles) (JStr "c") None None) None (state_at p 2000)
  = validate (includes_all (validators roles) (JList [JStr "c"]) None None)
      None (state_at p 2000).
Proof.
  intros p.
  apply validate_up_to_normalize; try reflexivity.
  vm_compute. discriminate.
Defined.

(** X14: when the stored claim value is a number or a boolean and is
    fresh (in milliseconds, as in X6), [validate] raises [TypeError] ([set]
    of a non-iterable) after its one clock reading. *)
Theorem scalar_claim_value_raises (self : SCV) (uc : UserContext) (s : State)
    (r : json) (n : num) (t : Z) :
  (get_value_from_payload (claim self) uc s).1 = Ok r →
  as_num r = Some n →
  (get_last_refetch_time (claim self) uc s).1 = Ok (JInt t) →
  Z.abs (now s - t) < 2 ^ 1000 →
  (∀ m, max_age_in_sec self = Some m → 0 ≤ m < 2 ^ 53) →
  (∀ m, max_age_in_sec self = Some m → now s - t ≤ m * 1000) →
  validate self uc s = (Raise TypeError, tick s).
Proof.
  intros Hv Hn Hlt Hmax Hbound Hfresh.
  assert (Hr : is_None r = false) by (by destruct r).
  rewrite (validate_fresh _ _ _ _ _ Hv Hr Hlt Hmax Hbound Hfresh).
  unfold check_values, py_set. by destruct r.
Qed.

Lemma scalar_claim_value_raises_witness :
  let p := {[ "st-roles" := JDict {[ "v" := JInt 7; "t" := JInt 1000 ]} ]}
           : gmap string json in
  let s := state_at p 2000 in
  validate (includes (validators roles) (JInt 7) None None) None s
  = (Raise TypeError, tick s).
Proof.
  intros p s.
  assert (Hmax : Z.abs (now s - 1000) < 2 ^ 1000) by (vm_compute; reflexivity).
  assert (Hbound : ∀ m : Z, Some 300 = Some m → 0 ≤ m < 2 ^ 53).
  { intros m [= <-]. split; [lia|vm_compute; reflexivity]. }
  assert (Hfresh : ∀ m : Z, Some 300 = Some m → now s - 1000 ≤ m * 1000).
  { intros m [= <-]. vm_compute. discriminate. }
  apply (scalar_claim_value_raises
           (includes (validators roles) (JInt 7) None None) None s
           (JInt 7) (NInt 7) 1000
           ltac:(vm_compute; reflexivity) ltac:(reflexivity)
           ltac:(vm_compute; reflexivity) Hmax Hbound Hfresh).
Defined.

(** *** Adding and removing *)

(** X9: a second [add_to_payload_] replaces the entry outright: the
    payload is the one a single add of the second value leaves, stamped
    with the second clock reading. *)
Theorem add_to_payload_overwrites (self : SessionClaim) (v1 v2 : json)
    (uc uc' : UserContext) (s : State) :
  let s1 := (add_to_payload_ self v1 uc s).2 in
  let s2 := (add_to_payload_ self v2 uc' s1).2 in
  payload s2
  = <[key self := JDict {[ "v" := v2; "t" := JInt (now (tick s)) ]}]> (payload s)
  ∧ s2 = (add_to_payload_ self v2 uc' (tick s)).2.
Proof.
  cbn zeta. rewrite !add_to_payload__eq. cbn [snd payload clock].
  rewrite insert_insert_eq. split; reflexivity.
Qed.

(** X10: [remove_from_payload] right after [add_to_payload_] never raises
    and leaves the payload without the key; when the key was not there
    before the add, the payload is back to what it was. *)
Theorem remove_after_add (self : SessionClaim) (value : json)
    (uc uc' : UserContext) (s : State) :
  let s1 := (add_to_payload_ self value uc s).2 in
  remove_from_payload self uc' s1
  = (Ok (delete (key self) (payload s)),
     {| payload := delete (key self) (payload s); clock := clock (tick s) |})
  ∧ (payload s !! key self = None →
     payload (remove_from_payload self uc' s1).2 = payload s).
Proof.
  cbn zeta. rewrite add_to_payload__eq. cbn [snd].
  rewrite remove_from_payload_present
    by (cbn [payload]; rewrite lookup_insert_eq; eauto).
  cbn [payload clock snd]. rewrite delete_insert_eq. split; [done|].
  intros Hnone. by apply delete_id.
Qed.

Lemma remove_after_add_witness :
  let s := state_at {[ "sub" := JStr "user-1" ]} 2000 in
  payload (remove_from_payload (base roles) None
             (add_to_payload_ (base roles) (JList [JStr "admin"]) None s).2).2
  = payload s.
Proof.
  intros s.
  apply (proj2 (remove_after_add (base roles) (JList [JStr "admin"]) None None s)).
  vm_compute. reflexivity.
Defined.

(** X11: after [remove_from_payload], whether it deleted the entry or
    raised on an absent key, the key is absent: both reads give [None],
    [should_refetch] is true and [validate] reports that the value does not
    exist, none of them touching the state. *)
Theorem reads_after_remove (self : SCV) (uc uc' : UserContext) (s : State) :
  let s1 := (remove_from_payload (claim self) uc s).2 in
  payload s1 !! key (claim self) = None
  ∧ get_value_from_payload (claim self) uc' s1 = (Ok JNull, s1)
  ∧ get_last_refetch_time (claim self) uc' s1 = (Ok JNull, s1)
  ∧ should_refetch self uc' s1 = (Ok true, s1)
  ∧ ∃ res, validate self uc' s1 = (Ok res, s1)
           ∧ message_of res = Some (JStr "value does not exist").
Proof.
  intros s1.
  assert (Hnone : payload s1 !! key (claim self) = None).
  { subst s1. destruct (payload s !! key (claim self)) as [e|] eqn:He.
    - rewrite remove_from_payload_present by (rewrite He; eauto).
      cbn [snd payload]. apply lookup_delete_eq.
    - by rewrite remove_from_payload_absent. }
  assert (Hv : get_value_from_payload (claim self) uc' s1 = (Ok JNull, s1)).
  { rewrite get_value_from_payload_eq, Hnone. reflexivity. }
  split_and!; [done|done| | |].
  - rewrite get_last_refetch_time_eq, Hnone. reflexivity.
  - unfold should_refetch, mbind, M_bind. rewrite Hv. reflexivity.
  - rewrite validate_eq.
    destruct (_validate_absent self uc' (include_axis (cls self)) s1)
      as (res & Hres & _ & Hwhy); [by rewrite Hv|].
    exists res. split; [done|]. unfold message_of. rewrite Hwhy.
    cbn [mbind option_bind]. by rewrite lookup_insert_eq.
Qed.

(** *** The factory and the test helper *)

(** X12: a validator built by any of the four constructors of a
    [PrimitiveArrayClaim] has a maximal age, never [None] and never 0; a
    non-zero maximal age and a non-empty id given by the caller are kept;
    the validator is bound to the claim, and its id is non-empty when the
    claim's key is. *)
Theorem factory_validators_have_max_age (k : string)
    (fetch : string → UserContext → json) (dflt : option Z)
    (val : json) (id_ : option string) (max_age_in_seconds : option Z) :
  let c := PrimitiveArrayClaim_init k fetch dflt in
  Forall (λ mk : PrimitiveArrayClaimValidators → json → option string →
                 option Z → SCV,
            let v := mk (validators c) val id_ max_age_in_seconds in
            (∃ m, max_age_in_sec v = Some m ∧ m ≠ 0)
            ∧ (∀ m, max_age_in_seconds = Some m → m ≠ 0 →
                    max_age_in_sec v = Some m)
            ∧ (∀ i, id_ = Some i → i ≠ "" → id v = i)
            ∧ (k ≠ "" → id v ≠ "")
            ∧ claim v = base c
            ∧ key (claim v) = k)
         [includes; excludes; includes_all; excludes_all].
Proof.
  intros c.
  assert (Hm : or_int max_age_in_seconds (or_int dflt 300) ≠ 0).
  { unfold or_int. destruct max_age_in_seconds as [z|], dflt as [z'|];
      repeat case_match; lia. }
  assert (Hid : k ≠ "" → or_str id_ k ≠ "").
  { intros Hk. unfold or_str. destruct id_ as [i|]; [|done].
    case_bool_decide; done. }
  assert (Hkeep : ∀ m, max_age_in_seconds = Some m → m ≠ 0 →
            or_int max_age_in_seconds (or_int dflt 300) = m).
  { intros m -> Hne. unfold or_int at 1. by rewrite (proj2 (Z.eqb_neq m 0) Hne). }
  assert (Hidk : ∀ i, id_ = Some i → i ≠ "" → or_str id_ k = i).
  { intros i -> Hne. unfold or_str. by rewrite bool_decide_eq_false_2. }
  repeat (apply Forall_cons; split;
    [cbn zeta; split_and!; cbn [max_age_in_sec id claim key base validators
        includes excludes includes_all excludes_all PrimitiveArrayClaim_init
        default_max_age_in_sec pacv_claim];
       [by eexists|intros m ??; f_equal; by apply Hkeep|exact Hidk|exact Hid
       |reflexivity|reflexivity]|]).
  apply Forall_nil. done.
Qed.

Lemma factory_validators_have_max_age_witness :
  let v := includes (validators (PrimitiveArrayClaim_init "st-roles" (λ _ _, JNull)
                                   (Some 0)))
             (JStr "admin") (Some "roles-check") (Some 60) in
  max_age_in_sec v = Some 60 ∧ id v = "roles-check".
Proof.
  intros v.
  pose proof (Forall_inv (factory_validators_have_max_age "st-roles" (λ _ _, JNull)
                            (Some 0) (JStr "admin") (Some "roles-check") (Some 60)))
    as (_ & Hm & Hi & _).
  split.
  - apply Hm; [reflexivity|discriminate].
  - apply Hi; [reflexivity|discriminate].
Defined.

(** X15: the overridden [create_new_session] raises what [build] raises
    without creating a session; otherwise it calls the original once, with
    a payload in which [params] wins over the claim's update, which wins
    over the incoming payload, a [None] payload or [params] counting as
    empty. *)
Theorem override_merges_payload {Request R : Type}
    (build : string → UserContext → M (gmap string json))
    (params : option (gmap string json)) (oi : RecipeInterface Request R)
    (request : Request) (user_id : string)
    (access_token_payload session_data : option (gmap string json))
    (user_context : UserContext) (s : State) :
  let new_create_new_session :=
    create_new_session (session_functions_override_with_claim build params oi) in
  (∀ e s', build user_id user_context s = (Raise e, s') →
     new_create_new_session request user_id access_token_payload session_data
       user_context s = (Raise e, s'))
  ∧ (∀ payload_update s', build user_id user_context s = (Ok payload_update, s') →
       ∃ merged,
         new_create_new_session request user_id access_token_payload
           session_data user_context s
         = create_new_session oi request user_id (Some merged) session_data
             user_context s'
         ∧ ∀ k, merged !! k
                = match default ∅ params !! k with
                  | Some x => Some x
                  | None =>
                      match payload_update !! k with
                      | Some x => Some x
                      | None => default ∅ access_token_payload !! k
                      end
                  end).
Proof.
  cbn zeta. split.
  - intros e s' Hb. cbn [session_functions_override_with_claim create_new_session].
    unfold mbind, M_bind. by rewrite Hb.
  - intros upd s' Hb. eexists. split.
    + cbn [session_functions_override_with_claim create_new_session].
      unfold mbind, M_bind. rewrite Hb. reflexivity.
    + intros k. rewrite !lookup_union.
      destruct (default ∅ params !! k), (upd !! k),
        (default ∅ access_token_payload !! k); reflexivity.
Qed.

Lemma override_merges_payload_witness :
  let build : string → UserContext → M (gmap string json) :=
    λ _ _, mret {[ "st-roles" := JNull; "b" := JInt 2 ]} in
  let oi : RecipeInterface unit (gmap string json) :=
    {| create_new_session := λ _ _ atp _ _, mret (default ∅ atp) |} in
  let s := state_at ∅ 2000 in
  ∃ merged,
    create_new_session
      (session_functions_override_with_claim build (Some {[ "b" := JInt 3 ]}) oi)
      tt "user-1" (Some {[ "st-roles" := JInt 1; "a" := JInt 1 ]}) None None s
    = (Ok merged, s)
    ∧ merged !! "st-roles" = Some JNull
    ∧ merged !! "b" = Some (JInt 3)
    ∧ merged !! "a" = Some (JInt 1).
Proof.
  intros build oi s.
  destruct (proj2 (override_merges_payload build (Some {[ "b" := JInt 3 ]}) oi tt
                     "user-1" (Some {[ "st-roles" := JInt 1; "a" := JInt 1 ]})
                     None None s)
              {[ "st-roles" := JNull; "b" := JInt 2 ]} s eq_refl)
    as (merged & Hrun & Hlook).
  exists merged. split; [exact Hrun|].
  rewrite !Hlook. vm_compute. done.
Defined.
